(** * Trading customer churn classifier notebook: a shallow embedding

    The notebook [TradingCustomerChurnClassifierSparkML] is a linear script:
    it selects feature columns of a pandas dataframe, builds a SparkML
    pipeline, splits the data, fits and evaluates the pipeline, publishes
    it and exports two CSV files.  Each code cell is embedded below as a
    function; the library calls it makes (pandas, pyspark, numpy) are
    modelled after the documented behaviour of those libraries, with
    [option] for a raised exception. *)

From Stdlib Require Import String Ascii DecimalString.
From Stdlib Require Import ZArith QArith Bool Arith Lia List Permutation.
Import ListNotations.

Local Open Scope string_scope.
Local Open Scope Z_scope.
Local Open Scope list_scope.
Local Open Scope nat_scope.

(* ================================================================= *)
(** ** Python built-ins used by the notebook *)

Module Py.

(** [x in l] on a list of strings. *)
Definition contains (l : list string) (x : string) : bool :=
  existsb (String.eqb x) l.

(** [l.remove(x)]: drops the first item equal to [x]; raises
    [ValueError] ([None]) when there is none. *)
Fixpoint remove (x : string) (l : list string) : option (list string) :=
  match l with
  | [] => None
  | y :: l' =>
      if String.eqb y x then Some l'
      else match remove x l' with
           | Some r => Some (y :: r)
           | None => None
           end
  end.

(** [l] with [x] at position [i]; a position past the end changes
    nothing (the callers check the bounds). *)
Fixpoint set_nth {A} (i : nat) (x : A) (l : list A) : list A :=
  match l, i with
  | [], _ => []
  | _ :: l', O => x :: l'
  | y :: l', S i' => y :: set_nth i' x l'
  end.

(** [l[-k] = x] for [k >= 1]: the index counts from the end; raises
    [IndexError] ([None]) when the list has fewer than [k] items. *)
Definition setitem_neg {A} (k : nat) (x : A) (l : list A) : option (list A) :=
  if (1 <=? k) && (k <=? length l) then Some (set_nth (length l - k) x l)
  else None.

(** [l[-k]] for [k >= 1]. *)
Definition getitem_neg {A} (k : nat) (l : list A) : option A :=
  if (1 <=? k) && (k <=? length l) then nth_error l (length l - k)
  else None.

End Py.

(* ================================================================= *)
(** ** Feature Preparer: the column lists *)

(** [categoricalColumns = ['GENDER', 'STATUS', 'HOMEOWNER']] *)
Definition categoricalColumns : list string := ["GENDER"; "STATUS"; "HOMEOWNER"].

Definition CHURNRISK : string := "CHURNRISK".

(** [[c for c in df_churn_pd.columns if c not in categoricalColumns]];
    the argument is [df_churn_pd.columns], a pandas index, in which a
    label may occur more than once. *)
Definition non_categoricalColumns (columns : list string) : list string :=
  filter (fun c => negb (Py.contains categoricalColumns c)) columns.

(** [non_categoricalColumns.remove('CHURNRISK')], applied to the list
    built above. *)
Definition numericColumns (columns : list string) : option (list string) :=
  Py.remove CHURNRISK (non_categoricalColumns columns).

(** [[c + "classVec" for c in categoricalColumns] + non_categoricalColumns] *)
Definition assemblerInputs (non_categorical : list string) : list string :=
  map (fun c => (c ++ "classVec")%string) categoricalColumns ++ non_categorical.

(* ================================================================= *)
(** ** Tabular data: cells, pandas frames and Spark frames

    A cell is missing, an integer, a double, a string or an ML vector.
    Doubles are modelled by rationals (no NaN, no infinity, no rounding);
    the doubles this notebook computes with are category indices and
    32-bit integers widened to double, which are exact. *)

Inductive value : Type :=
| VNull
| VInt (z : Z)
| VDouble (q : Q)
| VStr (s : string)
| VVec (v : list Q).

Definition Row : Type := list value.

(** A pandas frame: column labels (duplicates allowed) and rows. *)
Record PandasFrame : Type := mkPandas {
  pd_columns : list string;
  pd_rows : list Row
}.

(** A Spark frame: schema names, the nominal attribute that
    [StringIndexerModel] attaches to its output column (the label list),
    and rows. *)
Record DataFrame : Type := mkDF {
  columns : list string;
  attrs : list (string * list string);
  rows : list Row
}.

Definition rectangular (cols : list string) (rs : list Row) : bool :=
  forallb (fun r => length r =? length cols) rs.

(** [spark.createDataFrame(pdf)]: the column labels become the schema and
    the records the rows.  (Type inference, which can only reject a
    frame, is not modelled.) *)
Definition createDataFrame (pdf : PandasFrame) : option DataFrame :=
  if rectangular (pd_columns pdf) (pd_rows pdf)
  then Some (mkDF (pd_columns pdf) [] (pd_rows pdf))
  else None.

(** [df.toPandas()] *)
Definition toPandas (df : DataFrame) : PandasFrame :=
  mkPandas (columns df) (rows df).

(** Position of the first column called [name]. *)
Fixpoint find_col (name : string) (cols : list string) : option nat :=
  match cols with
  | [] => None
  | c :: cs =>
      if String.eqb c name then Some 0
      else match find_col name cs with
           | Some i => Some (S i)
           | None => None
           end
  end.

(** Spark's name resolution: [AnalysisException] ([None]) when the name is
    missing or ambiguous.  Names are compared as written; Spark's default
    resolver also identifies names that differ in case only, which can
    only turn a success into an ambiguity. *)
Definition resolve (cols : list string) (name : string) : option nat :=
  if count_occ string_dec cols name =? 1 then find_col name cols else None.

(** The cell of [row] in column [name]. *)
Definition cell (cols : list string) (row : Row) (name : string) : option value :=
  match resolve cols name with
  | Some i => nth_error row i
  | None => None
  end.

(** Traversal of a list with a fallible function: the first failure
    aborts (a Spark job fails as a whole). *)
Fixpoint mapM {A B} (f : A -> option B) (l : list A) : option (list B) :=
  match l with
  | [] => Some []
  | x :: l' =>
      match f x with
      | Some y => match mapM f l' with
                  | Some ys => Some (y :: ys)
                  | None => None
                  end
      | None => None
      end
  end.

(** A stage appends its output column; the schema check rejects an output
    name the frame already has.  [f] computes the new cell from the row. *)
Definition append_column (name : string) (f : Row -> option value) (df : DataFrame)
  : option DataFrame :=
  if Py.contains (columns df) name then None
  else match mapM (fun r => option_map (fun v => r ++ [v]) (f r)) (rows df) with
       | Some rs => Some (mkDF (columns df ++ [name]) (attrs df) rs)
       | None => None
       end.

(** [df.withColumn(name, df[name].<expr>)] on an existing column: the
    column keeps its place and every cell is recomputed from itself. *)
Definition replace_column (name : string) (f : value -> option value) (df : DataFrame)
  : option DataFrame :=
  match resolve (columns df) name with
  | None => None
  | Some i =>
      match mapM (fun r => match nth_error r i with
                           | Some v => option_map (fun w => Py.set_nth i w r) (f v)
                           | None => None
                           end) (rows df) with
      | Some rs => Some (mkDF (columns df) (attrs df) rs)
      | None => None
      end
  end.

(** [df.select(df[n1], ..., df[nk])] *)
Definition select (names : list string) (df : DataFrame) : option DataFrame :=
  match mapM (resolve (columns df)) names with
  | None => None
  | Some idx =>
      match mapM (fun r => mapM (nth_error r) idx) (rows df) with
      | Some rs => Some (mkDF names (attrs df) rs)
      | None => None
      end
  end.

(** *** Casting to [IntegerType] *)

Definition int_min : Z := (- 2 ^ 31)%Z.
Definition int_max : Z := (2 ^ 31 - 1)%Z.

(** Long to int keeps the low 32 bits (two's complement). *)
Definition wrap32 (z : Z) : Z := ((z + 2 ^ 31) mod 2 ^ 32 - 2 ^ 31)%Z.

(** Double to int truncates toward zero and saturates. *)
Definition truncate (q : Q) : Z := Z.quot (Qnum q) (Zpos (Qden q)).

Definition saturate (z : Z) : Z := Z.max int_min (Z.min int_max z).

Section Cast.

(** Spark's reading of a string as a decimal number ([None]: not a
    number). *)
Variable string_to_int : string -> option Z.

Definition in_int_range (z : Z) : bool := (int_min <=? z)%Z && (z <=? int_max)%Z.

(** [col.cast(IntegerType())]: a long is narrowed, a double truncated, a
    string parsed, with null for a string that is no number or is out of
    range; a vector column cannot be cast. *)
Definition cast_IntegerType (v : value) : option value :=
  match v with
  | VNull => Some VNull
  | VInt z => Some (VInt (wrap32 z))
  | VDouble q => Some (VInt (saturate (truncate q)))
  | VStr s => Some (match string_to_int s with
                    | Some z => if in_int_range z then VInt z else VNull
                    | None => VNull
                    end)
  | VVec _ => None
  end.

(** [for colnum in non_categoricalColumns:
       spark_df_churn = spark_df_churn.withColumn(colnum,
                          spark_df_churn[colnum].cast(IntegerType()))] *)
Fixpoint cast_columns (names : list string) (df : DataFrame) : option DataFrame :=
  match names with
  | [] => Some df
  | n :: ns =>
      match replace_column n cast_IntegerType df with
      | Some df' => cast_columns ns df'
      | None => None
      end
  end.

End Cast.

(* ================================================================= *)
(** ** SparkML feature stages *)

(** Category labels of a [StringIndexer], most frequent first.  Spark
    leaves the order of equally frequent labels open; here the later
    first occurrence comes first. *)
Fixpoint insert_by_count (cnt : string -> nat) (x : string) (l : list string)
  : list string :=
  match l with
  | [] => [x]
  | y :: l' => if cnt y <? cnt x then x :: y :: l' else y :: insert_by_count cnt x l'
  end.

Definition labels_by_frequency (texts : list string) : list string :=
  fold_right (insert_by_count (count_occ string_dec texts)) [] (nodup string_dec texts).

(** Index of a label in the label list. *)
Definition label_index (labels : list string) (s : string) : option nat :=
  find_col s labels.

(** [OneHotEncoder] with [dropLast = true]: a vector of [size] entries,
    with a one at [i] when [i < size], all zero for the last category. *)
Definition one_hot (size i : nat) : list Q :=
  map (fun j => if j =? i then 1%Q else 0%Q) (seq 0 size).

(** A double used as an index. *)
Definition index_of_double (q : Q) : option nat :=
  if Qle_bool 0 q then Some (Z.to_nat (truncate q)) else None.

Definition double_of_nat (n : nat) : Q := inject_Z (Z.of_nat n).

(** [VectorAssembler]: what one input cell contributes to the vector.
    A null or a string is rejected. *)
Definition assemble_cell (v : value) : option (list Q) :=
  match v with
  | VInt z => Some [inject_Z z]
  | VDouble q => Some [q]
  | VVec x => Some x
  | VNull => None
  | VStr _ => None
  end.

Fixpoint assemble (cols : list string) (inputs : list string) (r : Row)
  : option (list Q) :=
  match inputs with
  | [] => Some []
  | c :: cs =>
      match cell cols r c with
      | Some v =>
          match assemble_cell v, assemble cols cs r with
          | Some x, Some xs => Some (x ++ xs)
          | _, _ => None
          end
      | None => None
      end
  end.

(** *** Classifiers

    Training is the library's: a learner is a parameter that maps the
    training frame to a fitted model, or fails. *)

Record SparseVector : Type := mkSparse {
  sv_size : nat;
  sv_indices : list nat;
  sv_values : list Q        (* the stored (non-zero) entries only *)
}.

Inductive algorithm : Type := RandomForest | NaiveBayesAlg.

Record ClassifierModel : Type := mkModel {
  rawPrediction : list Q -> list Q;
  probability : list Q -> list Q;
  prediction : list Q -> Q;
  featureImportances : SparseVector
}.

Record Library : Type := mkLibrary {
  (** string to int of [cast(IntegerType())] *)
  string_to_int : string -> option Z;
  (** text of a double, for [StringIndexer] on a double column *)
  double_text : Q -> string;
  (** [RandomForestClassifier(labelCol, featuresCol).fit] *)
  RandomForest_fit : string -> string -> DataFrame -> option ClassifierModel;
  (** [NaiveBayes(labelCol, featuresCol).fit] *)
  NaiveBayes_fit : string -> string -> DataFrame -> option ClassifierModel;
  (** the order in which [randomSplit] visits the rows (it sorts each
      partition), and the 53 random bits drawn for the row at a position *)
  arrange : list Row -> list Row;
  arrange_perm : forall l, Permutation (arrange l) l;
  draw : Z -> nat -> N
}.

(** *** Stages *)

Inductive stage : Type :=
| StringIndexer (inputCol outputCol : string)
| StringIndexerModel (inputCol outputCol : string) (labels : list string)
| OneHotEncoder (inputCol outputCol : string)
| VectorAssembler (inputCols : list string) (outputCol : string)
| Classifier (alg : algorithm) (labelCol featuresCol : string)
| ClassificationModel (alg : algorithm) (featuresCol : string) (m : ClassifierModel)
| IndexToString (inputCol outputCol : string) (labels : list string).

Definition is_estimator (s : stage) : bool :=
  match s with
  | StringIndexer _ _ | Classifier _ _ _ => true
  | _ => false
  end.

Section Stages.

Variable lib : Library.

(** Text of a category cell ([cast(StringType)]). *)
Definition cell_text (v : value) : option string :=
  match v with
  | VStr s => Some s
  | VInt z => Some (NilZero.string_of_int (Z.to_int z))
  | VDouble q => Some (double_text lib q)
  | VNull => None
  | VVec _ => None
  end.

(** [StringIndexer(inputCol, outputCol).fit(df)]: rows with a null in
    the input column are dropped, the others counted by text. *)
Definition fit_labels (inputCol : string) (df : DataFrame) : option (list string) :=
  match resolve (columns df) inputCol with
  | None => None
  | Some i =>
      match mapM (fun r => match nth_error r i with
                           | Some VNull => Some []
                           | Some v => option_map (fun s => [s]) (cell_text v)
                           | None => None
                           end) (rows df) with
      | Some ts => Some (labels_by_frequency (concat ts))
      | None => None
      end
  end.

Definition set_attr (name : string) (labels : list string) (df : DataFrame) : DataFrame :=
  mkDF (columns df) ((name, labels) :: attrs df) (rows df).

Fixpoint get_attr (name : string) (a : list (string * list string))
  : option (list string) :=
  match a with
  | [] => None
  | (n, l) :: a' => if String.eqb n name then Some l else get_attr name a'
  end.

Definition as_double (v : value) : option Q :=
  match v with
  | VDouble q => Some q
  | VInt z => Some (inject_Z z)
  | _ => None
  end.

(** [stage.transform(df)] for a transformer; an estimator has no
    [transform] ([None]).  The encoder takes the number of categories from
    the attribute of its input column, which the indexer before it always
    sets in this notebook (the library's scan of the data for a column
    without attribute is not modelled).  A fitted classifier appends its
    three columns, each computed from the features of the row. *)
Definition transform_stage (s : stage) (df : DataFrame) : option DataFrame :=
  match s with
  | StringIndexerModel inC outC labels =>
      (* handleInvalid = "error": a null or an unseen label fails *)
      option_map (set_attr outC labels)
        (append_column outC
           (fun r => match cell (columns df) r inC with
                     | Some v =>
                         match cell_text v with
                         | Some s => option_map (fun i => VDouble (double_of_nat i))
                                       (label_index labels s)
                         | None => None
                         end
                     | None => None
                     end) df)
  | OneHotEncoder inC outC =>
      match get_attr inC (attrs df) with
      | Some labels =>
          (* dropLast: at least two categories are required *)
          if 2 <=? length labels then
            append_column outC
              (fun r => match cell (columns df) r inC with
                        | Some v =>
                            match as_double v with
                            | Some q => option_map
                                          (fun i => VVec (one_hot (length labels - 1) i))
                                          (index_of_double q)
                            | None => None
                            end
                        | None => None
                        end) df
          else None
      | None => None
      end
  | VectorAssembler inputs outC =>
      append_column outC
        (fun r => option_map VVec (assemble (columns df) inputs r)) df
  | ClassificationModel _ featC m =>
      let features r := match cell (columns df) r featC with
                        | Some (VVec x) => Some x
                        | _ => None
                        end in
      match append_column "rawPrediction"
              (fun r => option_map (fun x => VVec (rawPrediction m x)) (features r)) df with
      | Some d1 =>
          match append_column "probability"
                  (fun r => option_map (fun x => VVec (probability m x)) (features r)) d1 with
          | Some d2 =>
              append_column "prediction"
                (fun r => option_map (fun x => VDouble (prediction m x)) (features r)) d2
          | None => None
          end
      | None => None
      end
  | IndexToString inC outC labels =>
      append_column outC
        (fun r => match cell (columns df) r inC with
                  | Some v =>
                      match as_double v with
                      | Some q =>
                          match index_of_double q with
                          | Some i => option_map VStr (nth_error labels i)
                          | None => None
                          end
                      | None => None
                      end
                  | None => None
                  end) df
  | StringIndexer _ _ => None
  | Classifier _ _ _ => None
  end.

(** [estimator.fit(df)] *)
Definition fit_stage (s : stage) (df : DataFrame) : option stage :=
  match s with
  | StringIndexer inC outC =>
      option_map (StringIndexerModel inC outC) (fit_labels inC df)
  | Classifier RandomForest labelC featC =>
      option_map (ClassificationModel RandomForest featC)
        (RandomForest_fit lib labelC featC df)
  | Classifier NaiveBayesAlg labelC featC =>
      option_map (ClassificationModel NaiveBayesAlg featC)
        (NaiveBayes_fit lib labelC featC df)
  | _ => None
  end.

(** [PipelineModel.transform]: the stages applied in order. *)
Fixpoint transform (stages : list stage) (df : DataFrame) : option DataFrame :=
  match stages with
  | [] => Some df
  | s :: ss =>
      match transform_stage s df with
      | Some df' => transform ss df'
      | None => None
      end
  end.

(** [Pipeline._fit]: up to the last estimator a transformer is applied
    and an estimator is fitted, its model applied to feed the next
    stage; the last estimator's model is not applied, and the stages
    after it are kept as they are. *)
Fixpoint index_of_last_estimator (stages : list stage) (i : nat) (last : option nat)
  : option nat :=
  match stages with
  | [] => last
  | s :: ss =>
      index_of_last_estimator ss (S i) (if is_estimator s then Some i else last)
  end.

Fixpoint fit_from (stages : list stage) (i : nat) (last : option nat) (df : DataFrame)
  : option (list stage) :=
  match stages with
  | [] => Some []
  | s :: ss =>
      match last with
      | Some k =>
          if i <=? k then
            if is_estimator s then
              match fit_stage s df with
              | Some m =>
                  if i <? k then
                    match transform_stage m df with
                    | Some df' => option_map (cons m) (fit_from ss (S i) last df')
                    | None => None
                    end
                  else option_map (cons m) (fit_from ss (S i) last df)
              | None => None
              end
            else
              match transform_stage s df with
              | Some df' => option_map (cons s) (fit_from ss (S i) last df')
              | None => None
              end
          else option_map (cons s) (fit_from ss (S i) last df)
      | None => option_map (cons s) (fit_from ss (S i) last df)
      end
  end.

Definition Pipeline_fit (stages : list stage) (df : DataFrame) : option (list stage) :=
  fit_from stages 0 (index_of_last_estimator stages 0 None) df.

End Stages.

(* ================================================================= *)
(** ** Model Trainer: the train/test split *)

(** A uniform double in [[0, 1)] made of 53 random bits. *)
Definition nextDouble (k : N) : Q := Z.of_N (k mod 2 ^ 53) # (2 ^ 53).

Fixpoint scanLeft (acc : Q) (l : list Q) : list Q :=
  acc :: match l with
         | [] => []
         | x :: l' => scanLeft (acc + x)%Q l'
         end.

Fixpoint sliding2 (l : list Q) : list (Q * Q) :=
  match l with
  | a :: (b :: _) as l' => (a, b) :: sliding2 l'
  | _ => []
  end.

Definition Qsum (l : list Q) : Q := fold_left Qplus l 0%Q.

Definition normalizedCumWeights (weights : list Q) : list Q :=
  scanLeft 0%Q (map (fun w => (w / Qsum weights)%Q) weights).

Definition in_cell (lb ub x : Q) : bool := Qle_bool lb x && negb (Qle_bool ub x).

Section Split.

Variable lib : Library.

(** Bernoulli cell sampling: the row at position [i] of the arranged
    input is kept when its draw falls in [[lb, ub)]. *)
Fixpoint sample (lb ub : Q) (seed : Z) (i : nat) (rs : list Row) : list Row :=
  match rs with
  | [] => []
  | r :: rs' =>
      if in_cell lb ub (nextDouble (draw lib seed i))
      then r :: sample lb ub seed (S i) rs'
      else sample lb ub seed (S i) rs'
  end.

(** [df.randomSplit(weights, seed)]: negative weights and a
    non-positive sum are rejected; every split samples the same
    arranged rows with the same seed. *)
Definition randomSplit (weights : list Q) (seed : Z) (df : DataFrame)
  : option (list DataFrame) :=
  if forallb (Qle_bool 0) weights && negb (Qle_bool (Qsum weights) 0) then
    Some (map (fun c => mkDF (columns df) (attrs df)
                          (sample (fst c) (snd c) seed 0 (arrange lib (rows df))))
            (sliding2 (normalizedCumWeights weights)))
  else None.

End Split.

(** The notebook's call: [spark_df_churn.randomSplit([0.7,0.3], seed=100)],
    the two weights as the rationals 7/10 and 3/10. *)
Definition split_weights : list Q := [7 # 10; 3 # 10]%Q.
Definition split_seed : Z := 100%Z.

(* ================================================================= *)
(** ** Evaluator *)

(** SQL equality of two cells; [None] is SQL null.  (Label and
    prediction are doubles; a string against a number, which Spark
    compares after a cast, is left null here.) *)
Definition sql_eq (a b : value) : option bool :=
  match a, b with
  | VStr s, VStr t => Some (String.eqb s t)
  | VVec _, _ | _, VVec _ | VNull, _ | _, VNull => None
  | VStr _, _ | _, VStr _ => None
  | VInt x, VInt y => Some (Z.eqb x y)
  | VInt x, VDouble q => Some (Qeq_bool (inject_Z x) q)
  | VDouble q, VInt y => Some (Qeq_bool q (inject_Z y))
  | VDouble p, VDouble q => Some (Qeq_bool p q)
  end.

(** The predicate of [results.filter(results.label == results.prediction)]:
    a row is kept when the comparison is true (not false, not null). *)
Definition label_is_prediction (cols : list string) (r : Row) : bool :=
  match cell cols r "label", cell cols r "prediction" with
  | Some a, Some b => match sql_eq a b with
                      | Some true => true
                      | _ => false
                      end
  | _, _ => false
  end.

(** [results.filter(results.label == results.prediction).count()
       / float(results.count())]; dividing by zero raises. *)
Definition ratio (m n : nat) : option Q :=
  match n with
  | O => None
  | S _ => Some (Z.of_nat m # Pos.of_nat n)
  end.

Definition Model_Precision (results : DataFrame) : option Q :=
  match resolve (columns results) "label", resolve (columns results) "prediction" with
  | Some _, Some _ =>
      ratio (length (filter (label_is_prediction (columns results)) (rows results)))
            (length (rows results))
  | _, _ => None
  end.

(** *** [MulticlassMetrics] over (prediction, label) pairs *)

Section Metrics.

Variable K : Type.
Variable K_dec : forall x y : K, {x = y} + {x <> y}.

Fixpoint add_key (k : K) (n : nat) (m : list (K * nat)) : list (K * nat) :=
  match m with
  | [] => [(k, n)]
  | (k', n') :: m' =>
      if K_dec k k' then (k', n' + n) :: m' else (k', n') :: add_key k n m'
  end.

Definition reduceByKey (kvs : list (K * nat)) : list (K * nat) :=
  fold_left (fun m kv => add_key (fst kv) (snd kv) m) kvs [].

Fixpoint lookup (k : K) (m : list (K * nat)) : option nat :=
  match m with
  | [] => None
  | (k', n) :: m' => if K_dec k k' then Some n else lookup k m'
  end.

Definition values_sum (m : list (K * nat)) : nat := list_sum (map snd m).

Variable predictionAndLabels : list (K * K).

Definition labelCountByClass : list (K * nat) :=
  reduceByKey (map (fun pl => (snd pl, 1)) predictionAndLabels).

Definition labelCount : nat := values_sum labelCountByClass.

Definition tpByClass : list (K * nat) :=
  reduceByKey (map (fun pl => (snd pl, if K_dec (snd pl) (fst pl) then 1 else 0))
                 predictionAndLabels).

Definition fpByClass : list (K * nat) :=
  reduceByKey (map (fun pl => (fst pl, if K_dec (fst pl) (snd pl) then 0 else 1))
                 predictionAndLabels).

(** A quotient of two counts as a double; [0/0] is NaN ([None]). *)
Definition accuracy : option Q := ratio (values_sum tpByClass) labelCount.

Definition qdiv (m n : nat) : Q := Z.of_nat m # Pos.of_nat n.

(** [precision(label)]: the true positives of an absent label are a
    missing-key error. *)
Definition precision (l : K) : option Q :=
  match lookup l tpByClass with
  | None => None
  | Some tp =>
      let fp := match lookup l fpByClass with Some n => n | None => 0 end in
      Some (if tp + fp =? 0 then 0%Q else qdiv tp (tp + fp))
  end.

Definition recall (l : K) : option Q :=
  match lookup l tpByClass, lookup l labelCountByClass with
  | Some tp, Some n => Some (qdiv tp n)
  | _, _ => None
  end.

(** [fMeasure(label)], with [beta = 1]. *)
Definition fMeasure (l : K) : option Q :=
  match precision l, recall l with
  | Some p, Some r =>
      Some (if Qeq_bool (p + r) 0 then 0%Q else ((1 + 1) * p * r / (1 * p + r))%Q)
  | _, _ => None
  end.

End Metrics.

(** Doubles as keys: reduced fractions, compared structurally. *)
Definition Q_dec (a b : Q) : {a = b} + {a <> b}.
Proof. decide equality; [apply Pos.eq_dec | apply Z.eq_dec]. Defined.

(** [x.prediction] and [x.label] as Python floats. *)
Definition as_float (v : value) : option Q :=
  match v with
  | VDouble q => Some (Qred q)
  | _ => None
  end.

Fixpoint insert_sorted (x : Q) (l : list Q) : list Q :=
  match l with
  | [] => [x]
  | y :: l' => if Qle_bool x y then x :: y :: l' else y :: insert_sorted x l'
  end.

(** [sorted(l)] *)
Definition sorted (l : list Q) : list Q := fold_right insert_sorted [] l.

Record Evaluation : Type := mkEvaluation {
  f_measure : option Q;                    (* "Model F-measure" *)
  by_class : list (Q * option Q)           (* "Class %s F-Measure" lines *)
}.

(** [res.rdd.map(lambda pr: pr.<name>).collect()], as floats. *)
Definition column_floats (name : string) (df : DataFrame) : option (list Q) :=
  mapM (fun r => match cell (columns df) r name with
                 | Some v => as_float v
                 | None => None
                 end) (rows df).

(** The evaluation cell, given [res = model.transform(test)]. *)
Definition evaluate (res : DataFrame) : option Evaluation :=
  match column_floats "prediction" res, column_floats "label" res with
  | Some predictions, Some labels =>
      let predictionAndLabels := combine predictions labels in
      Some (mkEvaluation
              (accuracy Q Q_dec predictionAndLabels)
              (map (fun l => (l, fMeasure Q Q_dec predictionAndLabels l))
                 (sorted (nodup Q_dec labels))))
  | _, _ => None
  end.

(** *** Feature importances *)

Fixpoint insert_index (vals : list Q) (i : nat) (l : list nat) : list nat :=
  match l with
  | [] => [i]
  | j :: l' =>
      if Qle_bool (nth i vals 0%Q) (nth j vals 0%Q) then i :: j :: l'
      else j :: insert_index vals i l'
  end.

(** [np.argsort(vals)]: the positions of [vals], by increasing value. *)
Definition argsort (vals : list Q) : list nat :=
  fold_right (insert_index vals) [] (seq 0 (length vals)).

(** [np.array(a)[indices]]: an index past the end raises [IndexError]. *)
Definition take_indices {A} (a : list A) (indices : list nat) : option (list A) :=
  mapM (nth_error a) indices.

Record ImportancePlot : Type := mkPlot {
  bar_widths : list Q;        (* importances[indices] *)
  tick_labels : list string   (* np.array(features)[indices] *)
}.

(** [rfModel = model.stages[-2]; features = df_churn_pd.columns;
     importances = rfModel.featureImportances.values;
     indices = np.argsort(importances)] and the plot cell. *)
Definition feature_importance_plot (model : list stage) (features : list string)
  : option ImportancePlot :=
  match Py.getitem_neg 2 model with
  | Some (ClassificationModel RandomForest _ rfModel) =>
      let importances := sv_values (featureImportances rfModel) in
      let indices := argsort importances in
      match take_indices importances indices, take_indices features indices with
      | Some w, Some t => Some (mkPlot w t)
      | _, _ => None
      end
  | _ => None
  end.

(* ================================================================= *)
(** ** Publisher *)

#[local] Unset Elimination Schemes.
Inductive json : Type :=
| JInt (z : Z)
| JStr (s : string)
| JList (l : list json)
| JDict (d : list (string * json)).
#[local] Set Elimination Schemes.

(** [values = [4,"F","M",2,52004,"N",60,5030,23,1257,125,3,1,1,1000,0]] *)
Definition values : list json :=
  [JInt 4; JStr "F"; JStr "M"; JInt 2; JInt 52004; JStr "N"; JInt 60; JInt 5030;
   JInt 23; JInt 1257; JInt 125; JInt 3; JInt 1; JInt 1; JInt 1000; JInt 0].

Definition fields : list string :=
  ["ID"; "GENDER"; "STATUS"; "CHILDREN"; "ESTINCOME"; "HOMEOWNER"; "AGE";
   "TOTALDOLLARVALUETRADED"; "TOTALUNITSTRADED"; "LARGESTSINGLETRANSACTION";
   "SMALLESTSINGLETRANSACTION"; "PERCENTCHANGECALCULATION"; "DAYSSINCELASTLOGIN";
   "DAYSSINCELASTTRADE"; "NETREALIZEDGAINS_YTD"; "NETREALIZEDLOSSES_YTD"].

(** [scoring_payload = {"fields": fields, "values": [values]}] *)
Definition scoring_payload : json :=
  JDict [("fields", JList (map JStr fields)); ("values", JList [JList values])].

(** [pdf.drop(['CHURNRISK'], axis=1)]: every column with the label goes;
    a label that no column has raises [KeyError]. *)
Fixpoint drop_cells (name : string) (cols : list string) (r : Row) : Row :=
  match cols, r with
  | c :: cs, v :: vs =>
      if String.eqb c name then drop_cells name cs vs else v :: drop_cells name cs vs
  | _, _ => []
  end.

Definition drop (name : string) (pdf : PandasFrame) : option PandasFrame :=
  if Py.contains (pd_columns pdf) name then
    Some (mkPandas (filter (fun c => negb (String.eqb c name)) (pd_columns pdf))
            (map (drop_cells name (pd_columns pdf)) (pd_rows pdf)))
  else None.

(** What [to_csv(path, sep=',', index=False)] writes: a header line and a
    record per row, in order.  (How a cell is printed is pandas' matter.) *)
Record CsvFile : Type := mkCsv {
  csv_path : string;
  csv_header : list string;
  csv_records : list Row
}.

Definition to_csv (path : string) (pdf : PandasFrame) : CsvFile :=
  mkCsv path (pd_columns pdf) (pd_rows pdf).

(** [write_score_CSV = test.toPandas().drop(['CHURNRISK'], axis=1)] and
    its [to_csv]. *)
Definition write_score_CSV (test : DataFrame) : option CsvFile :=
  option_map (to_csv "../datasets/TradingCustomerSparkMLBatchScore.csv")
    (drop CHURNRISK (toPandas test)).

(** [write_eval_CSV = test.toPandas()] and its [to_csv]. *)
Definition write_eval_CSV (test : DataFrame) : CsvFile :=
  to_csv "../datasets/TradingCustomerSparkMLEval.csv" (toPandas test).

(** Calls that leave the notebook, in order (the listing calls, the
    look-ups of identifiers and the prints are left out). *)
Inductive event : Type :=
| StoreModel (model pipeline : list stage) (training_data : DataFrame)
| CreateDeployment (name : string)
| GetScoringUrl
| Score (payload : json)
| Save (name : string) (model : list stage) (test_data : DataFrame)
| WriteCsv (file : CsvFile).

(* ================================================================= *)
(** ** The notebook, cell by cell

    Python lists are objects: [stages], [stages_nb] and the [stages]
    parameter of a [Pipeline] are references into a store of list
    objects.  [Pipeline(stages=l)] keeps the list it is given (the
    parameter is stored as passed), and [getStages()] returns it. *)

Definition ref : Type := nat.
Definition store : Type := list (list stage).

Definition new_list (l : list stage) (h : store) : ref * store :=
  (length h, h ++ [l]).

Definition deref (h : store) (r : ref) : option (list stage) := nth_error h r.

(** [l += items] extends the list object in place. *)
Definition iadd (r : ref) (items : list stage) (h : store) : option store :=
  match deref h r with
  | Some l => Some (Py.set_nth r (l ++ items) h)
  | None => None
  end.

(** [l[-k] = x] *)
Definition setitem (r : ref) (k : nat) (x : stage) (h : store) : option store :=
  match deref h r with
  | Some l => option_map (fun l' => Py.set_nth r l' h) (Py.setitem_neg k x l)
  | None => None
  end.

Record Pipeline : Type := mkPipeline { getStages : ref }.

(** [stages = []] and the loop over [categoricalColumns], each turn doing
    [stages += [stringIndexer, encoder]]. *)
Fixpoint add_categorical_stages (cats : list string) (stages : ref) (h : store)
  : option store :=
  match cats with
  | [] => Some h
  | c :: cs =>
      match iadd stages [StringIndexer c (c ++ "Index");
                         OneHotEncoder (c ++ "Index") (c ++ "classVec")]%string h with
      | Some h' => add_categorical_stages cs stages h'
      | None => None
      end
  end.

Definition labels_of (s : stage) : list string :=
  match s with
  | StringIndexerModel _ _ labels => labels
  | _ => []
  end.

Definition rf : stage := Classifier RandomForest "label" "features".
Definition nb : stage := Classifier NaiveBayesAlg "label" "features".

Definition results_columns : list string :=
  ["ID"; CHURNRISK; "label"; "predictedLabel"; "prediction"; "probability"].

(** What the data-preparation cells leave behind, up to
    [assembler = VectorAssembler(inputCols=assemblerInputs, ...)]. *)
Record Prepared : Type := mkPrepared {
  pr_numeric : list string;          (* non_categoricalColumns, after the remove *)
  pr_heap : store;                   (* the list objects *)
  pr_stages : ref;
  pr_labelIndexer : stage;
  pr_spark_df_churn : DataFrame;     (* after the casts *)
  pr_assemblerInputs : list string;
  pr_assembler : stage
}.

(** What the cells up to [model = pipeline.fit(train)] leave behind. *)
Record Trained : Type := mkTrained {
  tr_numeric : list string;          (* non_categoricalColumns, after the remove *)
  tr_assemblerInputs : list string;
  tr_labelIndexer : stage;
  tr_spark_df_churn : DataFrame;     (* after the casts *)
  tr_heap : store;                   (* the list objects *)
  tr_stages : ref;
  tr_pipeline : Pipeline;
  tr_train : DataFrame;
  tr_test : DataFrame;
  tr_model : list stage              (* model.stages *)
}.

Record Notebook : Type := mkNotebook {
  nb_trained : Trained;
  nb_results : DataFrame;
  nb_precision : Q;                  (* "Model Precision" *)
  nb_evaluation : Evaluation;
  nb_plot : ImportancePlot;
  nb_heap : store;                   (* the list objects, at the end *)
  nb_stages_nb : ref;
  nb_pipeline_nb : Pipeline;
  nb_model_nb : list stage;
  nb_precision_nb : Q;               (* "Naive Bayes Model Precision" *)
  nb_trace : list event
}.

Section Run.

Variable lib : Library.

(** Option as the exception monad: a cell that raises ends the run. *)
Notation "x <- e ;; k" :=
  (match e with Some x => k | None => None end)
    (at level 61, e at next level, right associativity, only parsing).

Definition prepare_cells (df_churn_pd : PandasFrame) : option Prepared :=
  (* non_categoricalColumns = [...]; non_categoricalColumns.remove('CHURNRISK') *)
  numeric <- numericColumns (pd_columns df_churn_pd) ;;
  (* stages = []; for categoricalCol in categoricalColumns: ... *)
  let stages := fst (new_list [] []) in
  let h0 := snd (new_list [] []) in
  h1 <- add_categorical_stages categoricalColumns stages h0 ;;
  (* spark_df_churn = spark.createDataFrame(df_churn_pd); labelIndexer = ... *)
  sdf0 <- createDataFrame df_churn_pd ;;
  labelIndexer <- fit_stage lib (StringIndexer CHURNRISK "label") sdf0 ;;
  (* the cast loop *)
  spark_df_churn <- cast_columns (string_to_int lib) numeric sdf0 ;;
  (* assemblerInputs, assembler *)
  let inputs := assemblerInputs numeric in
  let assembler := VectorAssembler inputs "features" in
  Some (mkPrepared numeric h1 stages labelIndexer spark_df_churn inputs assembler).

Definition train_cells (df_churn_pd : PandasFrame) : option Trained :=
  p <- prepare_cells df_churn_pd ;;
  let stages := pr_stages p in
  let labelIndexer := pr_labelIndexer p in
  let spark_df_churn := pr_spark_df_churn p in
  (* rf, labelConverter; stages += [...]; pipeline = Pipeline(stages=stages) *)
  let labelConverter :=
    IndexToString "prediction" "predictedLabel" (labels_of labelIndexer) in
  h2 <- iadd stages [labelIndexer; pr_assembler p; rf; labelConverter] (pr_heap p) ;;
  let pipeline := mkPipeline stages in
  (* train, test = spark_df_churn.randomSplit([0.7,0.3], seed=100) *)
  splits <- randomSplit lib split_weights split_seed spark_df_churn ;;
  match splits with
  | [train; test] =>
      (* model = pipeline.fit(train) *)
      pstages <- deref h2 (getStages pipeline) ;;
      model <- Pipeline_fit lib pstages train ;;
      Some (mkTrained (pr_numeric p) (pr_assemblerInputs p) labelIndexer
              spark_df_churn h2 stages pipeline train test model)
  | _ => None
  end.

Definition run (df_churn_pd : PandasFrame) : option Notebook :=
  t <- train_cells df_churn_pd ;;
  let model := tr_model t in
  let train := tr_train t in
  let test := tr_test t in
  (* results = model.transform(test); results = results.select(...) *)
  res0 <- transform lib model test ;;
  results <- select results_columns res0 ;;
  (* print('Model Precision = ...') *)
  prec <- Model_Precision results ;;
  (* res = model.transform(test); metrics ... *)
  res <- transform lib model test ;;
  evaluation <- evaluate res ;;
  (* feature importance cells *)
  plot <- feature_importance_plot model (pd_columns df_churn_pd) ;;
  (* stages_nb = stages; stages_nb[-2] = nb; pipeline_nb = Pipeline(stages=stages_nb) *)
  let stages_nb := tr_stages t in
  h3 <- setitem stages_nb 2 nb (tr_heap t) ;;
  let pipeline_nb := mkPipeline stages_nb in
  nbstages <- deref h3 (getStages pipeline_nb) ;;
  model_nb <- Pipeline_fit lib nbstages train ;;
  results_nb <- transform lib model_nb test ;;
  prec_nb <- Model_Precision results_nb ;;
  (* client.repository.store_model(model=model, pipeline=pipeline, ...) *)
  stored <- deref h3 (getStages (tr_pipeline t)) ;;
  let e1 := StoreModel model stored train in
  let e2 := CreateDeployment "Trading Customer Churn Deployment" in
  let e3 := GetScoringUrl in
  (* predictions = client.deployments.score(scoring_endpoint, scoring_payload) *)
  let e4 := Score scoring_payload in
  let e5 := Save "TradingChurnRiskClassificationSparkML" model test in
  score_csv <- write_score_CSV test ;;
  let e6 := WriteCsv score_csv in
  let e7 := WriteCsv (write_eval_CSV test) in
  Some (mkNotebook t results prec evaluation plot h3 stages_nb pipeline_nb
          model_nb prec_nb [e1; e2; e3; e4; e5; e6; e7]).

End Run.

(* ================================================================= *)
(** ** Predicates used in the statements *)



(** The (column, cell) pairs of a record, without those of column [name]. *)
Definition without (name : string) (cols : list string) (r : Row) : list (string * value) :=
  filter (fun p => negb (String.eqb (fst p) name)) (combine cols r).

(** A frame is well formed when every row has a cell per column. *)
Definition wf (df : DataFrame) : Prop :=
  forall r, In r (rows df) -> length r = length (columns df).

(** [r'] at schema [cols'] keeps every cell that [r] has at [cols]. *)
Definition extends (cols cols' : list string) (r r' : Row) : Prop :=
  forall c v, cell cols r c = Some v -> cell cols' r' c = Some v.

(** A cell of an [IntegerType] column: null or a 32-bit integer. *)
Definition is_int32 (v : value) : Prop :=
  v = VNull \/ exists z, v = VInt z /\ (int_min <= z <= int_max)%Z.

(** The stage list behind [pipeline], with the classifier in its place,
    and the stages of a model fitted from it. *)
Definition pipeline_stages (numeric labels : list string) (classifier : stage)
  : list stage :=
  [StringIndexer "GENDER" "GENDERIndex";
   OneHotEncoder "GENDERIndex" "GENDERclassVec";
   StringIndexer "STATUS" "STATUSIndex";
   OneHotEncoder "STATUSIndex" "STATUSclassVec";
   StringIndexer "HOMEOWNER" "HOMEOWNERIndex";
   OneHotEncoder "HOMEOWNERIndex" "HOMEOWNERclassVec";
   StringIndexerModel CHURNRISK "label" labels;
   VectorAssembler (assemblerInputs numeric) "features";
   classifier;
   IndexToString "prediction" "predictedLabel" labels].

Definition fitted_stages (numeric lg ls lh labels : list string)
  (alg : algorithm) (m : ClassifierModel) : list stage :=
  [StringIndexerModel "GENDER" "GENDERIndex" lg;
   OneHotEncoder "GENDERIndex" "GENDERclassVec";
   StringIndexerModel "STATUS" "STATUSIndex" ls;
   OneHotEncoder "STATUSIndex" "STATUSclassVec";
   StringIndexerModel "HOMEOWNER" "HOMEOWNERIndex" lh;
   OneHotEncoder "HOMEOWNERIndex" "HOMEOWNERclassVec";
   StringIndexerModel CHURNRISK "label" labels;
   VectorAssembler (assemblerInputs numeric) "features";
   ClassificationModel alg "features" m;
   IndexToString "prediction" "predictedLabel" labels].

(** The effect of the cast loop on each row: the named columns are cast,
    the others are left alone. *)
Definition cast_row (s2i : string -> option Z) (cols names : list string) (r r' : Row) : Prop :=
  length r' = length r /\
  forall c,
    (In c names -> exists v w, cell cols r c = Some v /\
                               cast_IntegerType s2i v = Some w /\
                               cell cols r' c = Some w) /\
    (~ In c names -> cell cols r' c = cell cols r c).

(** Number of vector entries a cell contributes. *)
Definition width (v : value) : nat :=
  match v with
  | VVec x => length x
  | _ => 1
  end.

(** Every listed column of the row holds an [IntegerType] cell. *)
Definition integer_cells (names cols : list string) (r : Row) : Prop :=
  forall c, In c names -> exists v, cell cols r c = Some v /\ is_int32 v.

(** The row carries the three one-hot vectors and a feature vector as long
    as the three together plus one entry per numeric column. *)
Definition features_ok (numeric cols : list string) (r : Row) : Prop :=
  exists g s h fv,
    cell cols r "GENDERclassVec" = Some (VVec g) /\
    cell cols r "STATUSclassVec" = Some (VVec s) /\
    cell cols r "HOMEOWNERclassVec" = Some (VVec h) /\
    cell cols r "features" = Some (VVec fv) /\
    length fv = length g + length s + length h + length numeric.

(** Rows of a frame all satisfying a property of (schema, row). *)
Definition all_rows (P : list string -> Row -> Prop) (df : DataFrame) : Prop :=
  forall r, In r (rows df) -> P (columns df) r.

Definition has_vector (c : string) (cols : list string) (r : Row) : Prop :=
  exists x, cell cols r c = Some (VVec x).

(* ================================================================= *)
(** ** A small instance: six customers and stub learners *)

Module Example.

Definition columns17 : list string :=
  ["ID"; "GENDER"; "STATUS"; "CHILDREN"; "ESTINCOME"; "HOMEOWNER"; "AGE";
   "TOTALDOLLARVALUETRADED"; "TOTALUNITSTRADED"; "LARGESTSINGLETRANSACTION";
   "SMALLESTSINGLETRANSACTION"; "PERCENTCHANGECALCULATION"; "DAYSSINCELASTLOGIN";
   "DAYSSINCELASTTRADE"; "NETREALIZEDGAINS_YTD"; "NETREALIZEDLOSSES_YTD";
   "CHURNRISK"].

(** Six customers; the marital status of the fifth is left open. *)
Definition customers (status5 : string) : list Row :=
  [[VInt 1; VStr "F"; VStr "M"; VInt 2; VInt 52004; VStr "N"; VInt 60; VInt 5030;
    VInt 23; VInt 1257; VInt 125; VInt 3; VInt 1; VInt 1; VInt 1000; VInt 0;
    VStr "High"];
   [VInt 2; VStr "M"; VStr "S"; VInt 0; VInt 38000; VStr "Y"; VInt 34; VInt 12000;
    VInt 61; VInt 3100; VInt 80; VInt 7; VInt 4; VInt 9; VInt 0; VInt 250;
    VStr "Low"];
   [VInt 3; VStr "F"; VStr "S"; VInt 1; VInt 41000; VStr "N"; VInt 29; VInt 800;
    VInt 5; VInt 400; VInt 60; VInt 1; VInt 30; VInt 45; VInt 120; VInt 0;
    VStr "High"];
   [VInt 4; VStr "M"; VStr "D"; VInt 3; VInt 67000; VStr "Y"; VInt 51; VInt 45600;
    VInt 140; VInt 9000; VInt 210; VInt 12; VInt 2; VInt 3; VInt 5400; VInt 900;
    VStr "Medium"];
   [VInt 5; VStr "F"; VStr status5; VInt 2; VInt 75000; VStr "Y"; VInt 45; VInt 2300;
    VInt 12; VInt 950; VInt 40; VInt 2; VInt 15; VInt 20; VInt 0; VInt 1300;
    VStr "High"];
   [VInt 6; VStr "M"; VStr "M"; VInt 0; VInt 23000; VStr "N"; VInt 23; VInt 150;
    VInt 2; VInt 100; VInt 50; VInt 5; VInt 60; VInt 90; VInt 30; VInt 10;
    VStr "Low"]].

(** Three marital statuses (M, S, D), as in the data set of the notebook. *)
Definition df_churn_pd : PandasFrame := mkPandas columns17 (customers "M").


(** A stub learner: its model always predicts class 0 and stores an
    importance for each of the [n] features, the i-th being
    [(i+1) / (1 + ... + n)]. *)
Definition constant_model (n : nat) : ClassifierModel :=
  mkModel (fun _ => [1; 0; 0]%Q) (fun _ => [1; 0; 0]%Q) (fun _ => 0%Q)
    (mkSparse n (seq 0 n)
       (map (fun i => Z.of_nat (S i) # Pos.of_nat (n * S n / 2)) (seq 0 n))).

Definition features_width (featuresCol : string) (df : DataFrame) : nat :=
  match rows df with
  | r :: _ => match cell (columns df) r featuresCol with
              | Some (VVec x) => length x
              | _ => 0
              end
  | [] => 0
  end.

(** The stub library: no string parses as a number, both learners are
    the stub above, rows are visited in their order, and every third row
    draws the largest double, the others draw zero. *)
Definition lib : Library :=
  mkLibrary (fun _ => None) (fun _ => "")
    (fun _ featuresCol df => Some (constant_model (features_width featuresCol df)))
    (fun _ featuresCol df => Some (constant_model (features_width featuresCol df)))
    (fun l => l) (fun l => Permutation_refl l)
    (fun _ i => if i mod 3 =? 2 then (2 ^ 53 - 1)%N else 0%N).

End Example.

(** The instance, run. *)
Module Ran.

Definition force {A} (d : A) (o : option A) : A :=
  match o with
  | Some x => x
  | None => d
  end.

Definition no_frame : DataFrame := mkDF [] [] [].

Definition no_prepared : Prepared :=
  mkPrepared [] [] 0 rf no_frame [] rf.

Definition prepared : Prepared :=
  Eval vm_compute in force no_prepared (prepare_cells Example.lib Example.df_churn_pd).

Definition no_trained : Trained :=
  mkTrained [] [] rf no_frame [] 0 (mkPipeline 0) no_frame no_frame [].

Definition no_notebook : Notebook :=
  mkNotebook no_trained no_frame 0 (mkEvaluation None []) (mkPlot [] []) [] 0
    (mkPipeline 0) [] 0 [].

Definition trained : Trained :=
  Eval vm_compute in force no_trained (train_cells Example.lib Example.df_churn_pd).

(** [model.transform(test)] *)
Definition scored : DataFrame :=
  Eval vm_compute in
    force no_frame (transform Example.lib (tr_model trained) (tr_test trained)).

Definition notebook : Notebook :=
  Eval vm_compute in force no_notebook (run Example.lib Example.df_churn_pd).


End Ran.

(* ================================================================= *)
(** ** Further notions used in the statements *)

From Stdlib Require Import Sorted Lqa.

(** The two stages the loop over the categorical columns adds for a
    column. *)
Definition categorical_pair (c : string) : list stage :=
  [StringIndexer c (c ++ "Index"); OneHotEncoder (c ++ "Index") (c ++ "classVec")]%string.

(** The columns a fitted stage appends to a frame. *)
Definition output_columns (s : stage) : list string :=
  match s with
  | StringIndexerModel _ outC _ => [outC]
  | OneHotEncoder _ outC => [outC]
  | VectorAssembler _ outC => [outC]
  | ClassificationModel _ _ _ => ["rawPrediction"; "probability"; "prediction"]
  | IndexToString _ outC _ => [outC]
  | StringIndexer _ _ | Classifier _ _ _ => []
  end.



(** The eight feature stages of a fitted model (indexers, encoders, label
    indexer, assembler), without the classifier and the label decoder. *)
Definition feature_stages (numeric lg ls lh labels : list string) : list stage :=
  [StringIndexerModel "GENDER" "GENDERIndex" lg;
   OneHotEncoder "GENDERIndex" "GENDERclassVec";
   StringIndexerModel "STATUS" "STATUSIndex" ls;
   OneHotEncoder "STATUSIndex" "STATUSclassVec";
   StringIndexerModel "HOMEOWNER" "HOMEOWNERIndex" lh;
   OneHotEncoder "HOMEOWNERIndex" "HOMEOWNERclassVec";
   StringIndexerModel CHURNRISK "label" labels;
   VectorAssembler (assemblerInputs numeric) "features"].

(** The row holds a one-hot vector of [n] entries in column [c]. *)
Definition has_one_hot (c : string) (n : nat) (cols : list string) (r : Row) : Prop :=
  exists i, cell cols r c = Some (VVec (one_hot n i)).

(** The row holds the three one-hot vectors, sized by the label lists of
    the three indexers, non-null integers in the numeric columns, and as
    features the three vectors followed by those integers as doubles. *)
Definition encoded_row (numeric lg ls lh : list string) (cols : list string) (r : Row)
  : Prop :=
  exists ig ist ih zs,
    cell cols r "GENDERclassVec" = Some (VVec (one_hot (length lg - 1) ig)) /\
    cell cols r "STATUSclassVec" = Some (VVec (one_hot (length ls - 1) ist)) /\
    cell cols r "HOMEOWNERclassVec" = Some (VVec (one_hot (length lh - 1) ih)) /\
    Forall2 (fun c z => cell cols r c = Some (VInt z) /\ (int_min <= z <= int_max)%Z)
      numeric zs /\
    cell cols r "features"
    = Some (VVec (one_hot (length lg - 1) ig ++ one_hot (length ls - 1) ist ++
                  one_hot (length lh - 1) ih ++ map inject_Z zs)).

(** *** Counts behind the per-class metrics *)

Section ClassCounts.

Variable K : Type.
Variable K_dec : forall x y : K, {x = y} + {x <> y}.

Definition is_key (l k : K) : bool := if K_dec l k then true else false.

(** The amounts recorded under key [k] in a list of pairs. *)
Definition sum_for (k : K) (kvs : list (K * nat)) : nat :=
  list_sum (map snd (filter (fun kv => is_key k (fst kv)) kvs)).

(** What one more pair does to the entry of [k] in a reduced map. *)
Definition bump (k : K) (o : option nat) (kv : K * nat) : option nat :=
  if K_dec k (fst kv)
  then Some (match o with Some x => x + snd kv | None => snd kv end)
  else o.

(** Rows of class [l] predicted as [l]. *)
Definition class_tp (l : K) (pl : list (K * K)) : nat :=
  length (filter (fun p => is_key l (snd p) && is_key l (fst p)) pl).

(** Rows of another class predicted as [l]. *)
Definition class_fp (l : K) (pl : list (K * K)) : nat :=
  length (filter (fun p => is_key l (fst p) && negb (is_key l (snd p))) pl).

(** Rows of class [l]. *)
Definition class_count (l : K) (pl : list (K * K)) : nat :=
  length (filter (fun p => is_key l (snd p)) pl).

End ClassCounts.

(** The input frame of the example without its label column. *)
Definition unlabelled : PandasFrame :=
  Eval vm_compute in
    Ran.force (mkPandas [] []) (drop CHURNRISK Example.df_churn_pd).
(* ================================================================= *)
(** ** Facts about the Python list operations *)

Lemma contains_In l x : Py.contains l x = true <-> In x l.
Proof.
  unfold Py.contains. rewrite existsb_exists. split.
  - intros [y [Hy He]]. apply String.eqb_eq in He. now subst.
  - intros H. exists x. split; [assumption | apply String.eqb_refl].
Qed.

Lemma remove_In_other x y l r :
  Py.remove x l = Some r -> y <> x -> (In y r <-> In y l).
Proof.
  revert r. induction l as [|a l IH]; intros r H Hne; simpl in H.
  - discriminate.
  - destruct (String.eqb a x) eqn:E.
    + inversion H; subst. apply String.eqb_eq in E. subst a.
      simpl. intuition congruence.
    + destruct (Py.remove x l) as [r'|] eqn:R; [|discriminate].
      inversion H; subst. simpl. rewrite (IH r' eq_refl Hne). tauto.
Qed.

Lemma remove_count x l r :
  Py.remove x l = Some r ->
  count_occ string_dec l x = S (count_occ string_dec r x).
Proof.
  revert r. induction l as [|a l IH]; intros r H; simpl in H.
  - discriminate.
  - destruct (String.eqb a x) eqn:E.
    + inversion H; subst. apply String.eqb_eq in E. subst a.
      simpl. destruct (string_dec x x); congruence.
    + destruct (Py.remove x l) as [r'|] eqn:R; [|discriminate].
      inversion H; subst. apply String.eqb_neq in E.
      simpl. destruct (string_dec a x); [congruence|]. now apply IH.
Qed.

Lemma remove_total x l : In x l -> exists r, Py.remove x l = Some r.
Proof.
  induction l as [|a l IH]; simpl; [tauto|].
  intros H. destruct (String.eqb a x) eqn:E; [eauto|].
  apply String.eqb_neq in E. destruct H as [H|H]; [congruence|].
  destruct (IH H) as [r ->]. eauto.
Qed.

Lemma remove_length x l r : Py.remove x l = Some r -> length l = S (length r).
Proof.
  revert r. induction l as [|a l IH]; intros r H; simpl in H; [discriminate|].
  destruct (String.eqb a x); [inversion H; reflexivity|].
  destruct (Py.remove x l) as [r'|]; [|discriminate].
  inversion H; subst. simpl. f_equal. now apply IH.
Qed.

Lemma non_categorical_In columns c :
  In c (non_categoricalColumns columns) <-> In c columns /\ ~ In c categoricalColumns.
Proof.
  unfold non_categoricalColumns. rewrite filter_In, negb_true_iff.
  pose proof (contains_In categoricalColumns c) as Hc.
  destruct (Py.contains categoricalColumns c).
  - split; [intros [_ H]; discriminate | intros [_ H]; exfalso; apply H, Hc; reflexivity].
  - split; intros [H _]; (split; [exact H|]); [intros H'; apply Hc in H'; discriminate | reflexivity].
Qed.

Lemma non_categorical_count columns c :
  ~ In c categoricalColumns ->
  count_occ string_dec (non_categoricalColumns columns) c = count_occ string_dec columns c.
Proof.
  intros Hc. unfold non_categoricalColumns.
  induction columns as [|a l IH]; [reflexivity|].
  cbn [filter]. destruct (Py.contains categoricalColumns a) eqn:E; cbn [negb count_occ].
  - apply contains_In in E. destruct (string_dec a c); [congruence | exact IH].
  - destruct (string_dec a c); [f_equal|]; exact IH.
Qed.

Lemma classVec_not_label :
  ~ In CHURNRISK (map (fun c => (c ++ "classVec")%string) categoricalColumns).
Proof.
  simpl. intros [H|[H|[H|[]]]]; discriminate H.
Qed.

Lemma CHURNRISK_not_categorical : ~ In CHURNRISK categoricalColumns.
Proof.
  simpl. intros [H|[H|[H|[]]]]; discriminate H.
Qed.


(* ================================================================= *)
(** ** Facts about frames *)

Lemma mapM_Forall2 {A B} (f : A -> option B) l l' :
  mapM f l = Some l' -> Forall2 (fun x y => f x = Some y) l l'.
Proof.
  revert l'. induction l as [|x l IH]; intros l' H; simpl in H.
  - inversion H. constructor.
  - destruct (f x) as [y|] eqn:E; [|discriminate].
    destruct (mapM f l) as [ys|]; [|discriminate].
    inversion H; subst. constructor; auto.
Qed.

Lemma mapM_length {A B} (f : A -> option B) l l' :
  mapM f l = Some l' -> length l' = length l.
Proof.
  intros H. apply mapM_Forall2 in H. symmetry. eapply Forall2_length; eauto.
Qed.

Lemma mapM_total {A B} (f : A -> option B) l :
  (forall x, In x l -> exists y, f x = Some y) -> exists l', mapM f l = Some l'.
Proof.
  induction l as [|x l IH]; intros H; simpl.
  - eauto.
  - destruct (H x (or_introl eq_refl)) as [y ->].
    destruct IH as [ys ->]; [intros; apply H; now right | eauto].
Qed.

Lemma Forall2_In_r {A B} (R : A -> B -> Prop) l l' y :
  Forall2 R l l' -> In y l' -> exists x, In x l /\ R x y.
Proof.
  induction 1 as [|a b l l' Hab _ IH]; simpl; [tauto|].
  intros [<-|Hy]; [eauto|]. destruct (IH Hy) as [x [Hx Hr]]; eauto.
Qed.

Lemma Forall2_In_l {A B} (R : A -> B -> Prop) l l' x :
  Forall2 R l l' -> In x l -> exists y, In y l' /\ R x y.
Proof.
  induction 1 as [|a b l l' Hab _ IH]; simpl; [tauto|].
  intros [<-|Hx]; [eauto|]. destruct (IH Hx) as [y [Hy Hr]]; eauto.
Qed.

Lemma Forall2_compose {A B C} (R : A -> B -> Prop) (S : B -> C -> Prop)
  (T : A -> C -> Prop) l1 l2 l3 :
  (forall a b c, R a b -> S b c -> T a c) ->
  Forall2 R l1 l2 -> Forall2 S l2 l3 -> Forall2 T l1 l3.
Proof.
  intros H H12. revert l3. induction H12; intros l3 H23; inversion H23; subst;
    constructor; eauto.
Qed.

Lemma rectangular_wf cols rs :
  rectangular cols rs = true <-> (forall r, In r rs -> length r = length cols).
Proof.
  unfold rectangular. rewrite forallb_forall. split; intros H r Hr.
  - now apply Nat.eqb_eq, H.
  - now apply Nat.eqb_eq, H.
Qed.

Lemma createDataFrame_spec pdf df :
  createDataFrame pdf = Some df ->
  columns df = pd_columns pdf /\ rows df = pd_rows pdf /\ attrs df = [] /\ wf df.
Proof.
  unfold createDataFrame. destruct (rectangular _ _) eqn:E; [|discriminate].
  intros H; inversion H; subst; simpl. repeat split.
  unfold wf; simpl. now apply rectangular_wf.
Qed.

Lemma find_col_Some name cols i :
  find_col name cols = Some i -> nth_error cols i = Some name /\ i < length cols.
Proof.
  revert i. induction cols as [|c cs IH]; intros i H; simpl in H; [discriminate|].
  destruct (String.eqb c name) eqn:E.
  - inversion H; subst. apply String.eqb_eq in E. subst. simpl. split; [reflexivity|lia].
  - destruct (find_col name cs) as [j|]; [|discriminate].
    inversion H; subst. destruct (IH j eq_refl). simpl. split; [assumption|lia].
Qed.

Lemma find_col_None name cols : find_col name cols = None <-> ~ In name cols.
Proof.
  induction cols as [|c cs IH]; simpl; [tauto|].
  destruct (String.eqb c name) eqn:E.
  - apply String.eqb_eq in E. split; [discriminate | intros H; exfalso; auto].
  - apply String.eqb_neq in E. destruct (find_col name cs).
    + split; [discriminate|]. intros H. exfalso. apply H. right.
      destruct (in_dec string_dec name cs) as [Hin|Hn]; [assumption|].
      apply IH in Hn. discriminate.
    + split; [|reflexivity]. intros _ [H|H]; [congruence|]. now apply IH.
Qed.

Lemma find_col_app name cols ext i :
  find_col name cols = Some i -> find_col name (cols ++ ext) = Some i.
Proof.
  revert i. induction cols as [|c cs IH]; intros i H; simpl in *; [discriminate|].
  destruct (String.eqb c name); [assumption|].
  destruct (find_col name cs) as [j|]; [|discriminate].
  now rewrite (IH j eq_refl).
Qed.

Lemma find_col_app_new name cols :
  ~ In name cols -> find_col name (cols ++ [name]) = Some (length cols).
Proof.
  induction cols as [|c cs IH]; intros H; simpl.
  - now rewrite String.eqb_refl.
  - destruct (String.eqb c name) eqn:E.
    + apply String.eqb_eq in E. exfalso. apply H. now left.
    + rewrite IH; [reflexivity|]. intros Hc. apply H. now right.
Qed.

Lemma resolve_Some cols name i :
  resolve cols name = Some i -> nth_error cols i = Some name /\ i < length cols.
Proof.
  unfold resolve. destruct (_ =? 1); [apply find_col_Some | discriminate].
Qed.

Lemma resolve_In cols name i : resolve cols name = Some i -> In name cols.
Proof.
  intros H. apply resolve_Some in H. destruct H as [H _]. eapply nth_error_In; eauto.
Qed.

Lemma resolve_app_other cols name m :
  name <> m -> resolve (cols ++ [m]) name = resolve cols name.
Proof.
  intros Hne. unfold resolve. rewrite count_occ_app. simpl.
  destruct (string_dec m name); [congruence|]. rewrite Nat.add_0_r.
  destruct (count_occ string_dec cols name =? 1) eqn:E; [|reflexivity].
  destruct (find_col name cols) as [i|] eqn:F.
  - now apply find_col_app.
  - apply find_col_None in F. apply Nat.eqb_eq in E.
    rewrite (proj1 (count_occ_not_In string_dec cols name) F) in E. discriminate.
Qed.

Lemma resolve_app_new cols m :
  ~ In m cols -> resolve (cols ++ [m]) m = Some (length cols).
Proof.
  intros H. unfold resolve. rewrite count_occ_app. simpl.
  destruct (string_dec m m); [|congruence].
  rewrite (proj1 (count_occ_not_In string_dec cols m) H). simpl.
  now apply find_col_app_new.
Qed.

Lemma cell_app_other cols r name m v :
  length r = length cols -> name <> m ->
  cell (cols ++ [m]) (r ++ [v]) name = cell cols r name.
Proof.
  intros Hl Hne. unfold cell. rewrite resolve_app_other by assumption.
  destruct (resolve cols name) as [i|] eqn:E; [|reflexivity].
  apply resolve_Some in E. apply nth_error_app1. lia.
Qed.

Lemma cell_app_new cols r m v :
  length r = length cols -> ~ In m cols ->
  cell (cols ++ [m]) (r ++ [v]) m = Some v.
Proof.
  intros Hl Hn. unfold cell. rewrite resolve_app_new by assumption.
  rewrite nth_error_app2 by lia. rewrite <- Hl, Nat.sub_diag. reflexivity.
Qed.

Lemma cell_In cols r name v : cell cols r name = Some v -> In name cols.
Proof.
  unfold cell. destruct (resolve cols name) eqn:E; [|discriminate].
  intros _. eapply resolve_In; eauto.
Qed.

Lemma extends_refl cols r : extends cols cols r r.
Proof. intros c v H. exact H. Qed.

Lemma extends_trans c1 c2 c3 r1 r2 r3 :
  extends c1 c2 r1 r2 -> extends c2 c3 r2 r3 -> extends c1 c3 r1 r3.
Proof. intros H12 H23 c v H. apply H23, H12, H. Qed.

Lemma append_column_spec name f df df' :
  append_column name f df = Some df' -> wf df ->
  columns df' = columns df ++ [name] /\ attrs df' = attrs df /\
  ~ In name (columns df) /\ wf df' /\
  Forall2 (fun r r' => exists v, f r = Some v /\ r' = r ++ [v] /\
                                 cell (columns df') r' name = Some v /\
                                 extends (columns df) (columns df') r r')
    (rows df) (rows df').
Proof.
  unfold append_column. intros H Hwf.
  destruct (Py.contains (columns df) name) eqn:E; [discriminate|].
  assert (Hn : ~ In name (columns df)).
  { intros Hin. apply contains_In in Hin. congruence. }
  match type of H with
  | match ?m with _ => _ end = _ => destruct m as [rs|] eqn:M; [|discriminate]
  end.
  inversion H; subst; clear H. simpl.
  apply mapM_Forall2 in M.
  assert (F : Forall2 (fun r r' => exists v, f r = Some v /\ r' = r ++ [v] /\
              cell (columns df ++ [name]) r' name = Some v /\
              extends (columns df) (columns df ++ [name]) r r') (rows df) rs).
  { revert Hwf M. unfold wf. generalize (rows df) as l. intros l Hwf M.
    induction M as [|r r' l l' Hr _ IH]; constructor.
    - destruct (f r) as [v|] eqn:Ef; [|discriminate]. simpl in Hr.
      inversion Hr; subst. exists v. repeat split.
      + apply cell_app_new; [apply Hwf; now left | assumption].
      + intros c w Hc. rewrite cell_app_other; [assumption | apply Hwf; now left|].
        intros ->. apply cell_In in Hc. contradiction.
    - apply IH. intros x Hx. apply Hwf. now right. }
  repeat split; try assumption.
  unfold wf. simpl. intros r' Hr'.
  destruct (Forall2_In_r _ _ _ _ F Hr') as [r [Hr [v [_ [-> _]]]]].
  rewrite !length_app. simpl. f_equal. now apply Hwf.
Qed.

(** *** Replacing and casting columns *)

Lemma set_nth_length {A} i (x : A) l : length (Py.set_nth i x l) = length l.
Proof.
  revert i. induction l as [|y l IH]; intros [|i]; simpl; auto.
Qed.

Lemma set_nth_same {A} i (x : A) l :
  i < length l -> nth_error (Py.set_nth i x l) i = Some x.
Proof.
  revert i. induction l as [|y l IH]; intros [|i] H; simpl in *; try lia; auto.
  apply IH. lia.
Qed.

Lemma set_nth_other {A} i j (x : A) l :
  i <> j -> nth_error (Py.set_nth i x l) j = nth_error l j.
Proof.
  revert i j. induction l as [|y l IH]; intros [|i] [|j] H; simpl; auto; try congruence.
Qed.

Lemma wrap32_range z : (int_min <= wrap32 z <= int_max)%Z.
Proof.
  unfold wrap32, int_min, int_max.
  pose proof (Z.mod_pos_bound (z + 2 ^ 31) (2 ^ 32) eq_refl). lia.
Qed.

Lemma wrap32_id z : (int_min <= z <= int_max)%Z -> wrap32 z = z.
Proof.
  unfold wrap32, int_min, int_max. intros H.
  rewrite Z.mod_small; lia.
Qed.

Lemma saturate_range z : (int_min <= saturate z <= int_max)%Z.
Proof. unfold saturate, int_min, int_max. lia. Qed.

Lemma cast_int32 s2i v w : cast_IntegerType s2i v = Some w -> is_int32 w.
Proof.
  destruct v; simpl; intros H; inversion H; subst; clear H.
  - now left.
  - right. eexists. split; [reflexivity | apply wrap32_range].
  - right. eexists. split; [reflexivity | apply saturate_range].
  - destruct (s2i s) as [z|]; [|now left].
    destruct (in_int_range z) eqn:E; [right | now left].
    exists z. split; [reflexivity|]. unfold in_int_range in E.
    apply andb_true_iff in E. destruct E as [E1 E2].
    apply Z.leb_le in E1, E2. lia.
Qed.

Lemma cast_int32_id s2i w : is_int32 w -> cast_IntegerType s2i w = Some w.
Proof.
  intros [->|[z [-> Hz]]]; simpl; [reflexivity|]. now rewrite wrap32_id.
Qed.

Lemma cast_idempotent s2i v w :
  cast_IntegerType s2i v = Some w -> cast_IntegerType s2i w = Some w.
Proof. intros H. eapply cast_int32_id, cast_int32, H. Qed.

Lemma resolve_inj cols a b i :
  resolve cols a = Some i -> resolve cols b = Some i -> a = b.
Proof.
  intros Ha Hb. apply resolve_Some in Ha, Hb. destruct Ha as [Ha _], Hb as [Hb _].
  congruence.
Qed.

Lemma replace_column_spec name f df df' :
  replace_column name f df = Some df' ->
  columns df' = columns df /\ attrs df' = attrs df /\
  exists i, resolve (columns df) name = Some i /\
    Forall2 (fun r r' => exists v w, nth_error r i = Some v /\ f v = Some w /\
                                     r' = Py.set_nth i w r)
      (rows df) (rows df').
Proof.
  unfold replace_column. destruct (resolve (columns df) name) as [i|] eqn:E; [|discriminate].
  match goal with
  | |- match ?m with _ => _ end = _ -> _ => destruct m as [rs|] eqn:M; [|discriminate]
  end.
  intros H; inversion H; subst; clear H. simpl. repeat split. exists i. split; [reflexivity|].
  apply mapM_Forall2 in M. eapply Forall2_impl; [|exact M].
  intros r r' Hr. simpl in Hr. destruct (nth_error r i) as [v|]; [|discriminate].
  destruct (f v) as [w|] eqn:Ef; [|discriminate]. inversion Hr; subst. eauto.
Qed.

Lemma cast_columns_spec s2i names df df' :
  cast_columns s2i names df = Some df' ->
  columns df' = columns df /\ attrs df' = attrs df /\
  Forall2 (cast_row s2i (columns df) names) (rows df) (rows df').
Proof.
  revert df. induction names as [|n ns IH]; intros df H; simpl in H.
  - inversion H; subst. repeat split.
    apply Forall2_flip, Forall2_impl with (R1 := eq).
    + intros a b <-. split; [reflexivity|]. intros c; split; [intros []|reflexivity].
    + clear. induction (rows df'); constructor; auto.
  - destruct (replace_column n (cast_IntegerType s2i) df) as [df1|] eqn:R; [|discriminate].
    apply replace_column_spec in R. destruct R as [Hc [Ha [i [Hi F1]]]].
    apply IH in H. destruct H as [Hc' [Ha' F2]].
    repeat split; try congruence.
    rewrite Hc in F2.
    eapply Forall2_compose; [|exact F1|exact F2].
    intros r r1 r' [v [w [Hv [Hw ->]]]] [Hl Hcells]. split.
    { now rewrite Hl, set_nth_length. }
    assert (Hi_lt : i < length r) by (apply nth_error_Some; congruence).
    assert (Hn1 : cell (columns df) (Py.set_nth i w r) n = Some w).
    { unfold cell. rewrite Hi. now apply set_nth_same. }
    assert (Hn0 : cell (columns df) r n = Some v).
    { unfold cell. now rewrite Hi. }
    assert (Hother : forall c, c <> n ->
              cell (columns df) (Py.set_nth i w r) c = cell (columns df) r c).
    { intros c Hcn. unfold cell. destruct (resolve (columns df) c) as [j|] eqn:Ej; [|reflexivity].
      apply set_nth_other. intros <-. apply Hcn. eapply resolve_inj; eauto. }
    intros c. destruct (Hcells c) as [Hin Hout]. split.
    + intros [<-|Hc_ns].
      * exists v, w. repeat split; try assumption.
        destruct (in_dec string_dec n ns) as [Hn|Hn].
        -- destruct (Hin Hn) as [v1 [w1 [E1 [E2 E3]]]].
           rewrite Hn1 in E1. inversion E1; subst v1.
           rewrite (cast_idempotent _ _ _ Hw) in E2. congruence.
        -- now rewrite (Hout Hn).
      * destruct (Hin Hc_ns) as [v1 [w1 [E1 [E2 E3]]]].
        destruct (string_dec c n) as [->|Hcn].
        -- exists v, w. repeat split; try assumption.
           rewrite Hn1 in E1. inversion E1; subst v1.
           rewrite (cast_idempotent _ _ _ Hw) in E2. congruence.
        -- rewrite (Hother c Hcn) in E1. eauto.
    + intros Hnot. assert (c <> n) by (intros ->; apply Hnot; now left).
      rewrite Hout, Hother; auto. intros Hc_ns. apply Hnot. now right.
Qed.

(** *** Stages only append columns *)

Lemma Forall2_refl_on {A} (R : A -> A -> Prop) l :
  (forall x, R x x) -> Forall2 R l l.
Proof. intros H. induction l; constructor; auto. Qed.

Lemma append_column_extends name f df df' :
  append_column name f df = Some df' -> wf df ->
  wf df' /\ attrs df' = attrs df /\
  Forall2 (extends (columns df) (columns df')) (rows df) (rows df').
Proof.
  intros H Hwf. destruct (append_column_spec _ _ _ _ H Hwf) as [_ [Ha [_ [Hwf' F]]]].
  repeat split; try assumption.
  eapply Forall2_impl; [|exact F]. intros r r' [v [_ [_ [_ He]]]]. exact He.
Qed.

Lemma option_map_Some {A B} (f : A -> B) a b :
  option_map f a = Some b -> exists x, a = Some x /\ b = f x.
Proof. destruct a; simpl; intros H; inversion H; eauto. Qed.

Lemma transform_stage_extends lib s df df' :
  transform_stage lib s df = Some df' -> wf df ->
  wf df' /\ Forall2 (extends (columns df) (columns df')) (rows df) (rows df').
Proof.
  intros H Hwf. destruct s; cbn [transform_stage] in H; try discriminate.
  - (* StringIndexerModel *)
    apply option_map_Some in H. destruct H as [d [A ->]].
    unfold set_attr, wf; simpl.
    apply append_column_extends in A; [|assumption]. destruct A as [W [_ F]]. split; assumption.
  - (* OneHotEncoder *)
    destruct (get_attr inputCol (attrs df)); [|discriminate].
    destruct (2 <=? length l); [|discriminate].
    apply append_column_extends in H; [|assumption]. destruct H as [W [_ F]]. split; assumption.
  - (* VectorAssembler *)
    apply append_column_extends in H; [|assumption]. destruct H as [W [_ F]]. split; assumption.
  - (* ClassificationModel *)
    match type of H with
    | match ?a with _ => _ end = _ => destruct a as [d1|] eqn:A1; [|discriminate]
    end.
    match type of H with
    | match ?a with _ => _ end = _ => destruct a as [d2|] eqn:A2; [|discriminate]
    end.
    apply append_column_extends in A1; [|assumption]. destruct A1 as [W1 [_ F1]].
    apply append_column_extends in A2; [|assumption]. destruct A2 as [W2 [_ F2]].
    apply append_column_extends in H; [|assumption]. destruct H as [W3 [_ F3]].
    split; [assumption|].
    eapply Forall2_compose; [|eapply Forall2_compose; [|exact F1|exact F2]|exact F3];
      intros a b c; apply extends_trans.
  - (* IndexToString *)
    apply append_column_extends in H; [|assumption]. destruct H as [W [_ F]]. split; assumption.
Qed.

Lemma transform_extends lib ss df df' :
  transform lib ss df = Some df' -> wf df ->
  wf df' /\ Forall2 (extends (columns df) (columns df')) (rows df) (rows df').
Proof.
  revert df. induction ss as [|s ss IH]; intros df H Hwf; simpl in H.
  - inversion H; subst. split; [assumption|]. apply Forall2_refl_on, extends_refl.
  - destruct (transform_stage lib s df) as [d|] eqn:T; [|discriminate].
    apply transform_stage_extends in T; [|assumption]. destruct T as [W F].
    destruct (IH _ H W) as [W' F']. split; [assumption|].
    eapply Forall2_compose; [|exact F|exact F']. intros a b c; apply extends_trans.
Qed.

Lemma OneHotEncoder_vector lib inC outC df df' :
  transform_stage lib (OneHotEncoder inC outC) df = Some df' -> wf df ->
  forall r', In r' (rows df') -> exists x, cell (columns df') r' outC = Some (VVec x).
Proof.
  cbn [transform_stage]. intros H Hwf r' Hr'.
  destruct (get_attr inC (attrs df)); [|discriminate].
  destruct (2 <=? length l); [|discriminate].
  apply append_column_spec in H; [|assumption]. destruct H as [_ [_ [_ [_ F]]]].
  destruct (Forall2_In_r _ _ _ _ F Hr') as [r [_ [v [Hv [_ [Hc _]]]]]].
  destruct (cell (columns df) r inC); [|discriminate].
  destruct (as_double v0); [|discriminate].
  destruct (index_of_double q); [|discriminate].
  inversion Hv; subst. eauto.
Qed.

Lemma VectorAssembler_features lib inputs outC df df' :
  transform_stage lib (VectorAssembler inputs outC) df = Some df' -> wf df ->
  Forall2 (fun r r' => exists fv, assemble (columns df) inputs r = Some fv /\
                                  cell (columns df') r' outC = Some (VVec fv) /\
                                  extends (columns df) (columns df') r r')
    (rows df) (rows df').
Proof.
  cbn [transform_stage]. intros H Hwf.
  apply append_column_spec in H; [|assumption]. destruct H as [_ [_ [_ [_ F]]]].
  eapply Forall2_impl; [|exact F]. intros r r' [v [Hv [_ [Hc He]]]].
  destruct (assemble (columns df) inputs r) as [fv|]; [|discriminate].
  inversion Hv; subst. eauto.
Qed.

(** *** The assembled vector *)

Lemma assemble_cell_width v x : assemble_cell v = Some x -> length x = width v.
Proof. destruct v; simpl; intros H; inversion H; reflexivity. Qed.

Lemma assemble_app cols a b r fv :
  assemble cols (a ++ b) r = Some fv ->
  exists x y, assemble cols a r = Some x /\ assemble cols b r = Some y /\ fv = x ++ y.
Proof.
  revert fv. induction a as [|c a IH]; intros fv H; simpl in *.
  - eauto.
  - destruct (cell cols r c) as [v|]; [|discriminate].
    destruct (assemble_cell v) as [x|]; [|discriminate].
    destruct (assemble cols (a ++ b) r) as [xs|] eqn:E; [|discriminate].
    inversion H; subst. destruct (IH xs eq_refl) as [x' [y [-> [Hy ->]]]].
    exists (x ++ x'), y. now rewrite app_assoc.
Qed.

Lemma assemble_integers cols names r fv :
  assemble cols names r = Some fv ->
  (forall c, In c names -> exists v, cell cols r c = Some v /\ is_int32 v) ->
  length fv = length names.
Proof.
  revert fv. induction names as [|c cs IH]; intros fv H Hint; simpl in H.
  - inversion H; reflexivity.
  - destruct (Hint c (or_introl eq_refl)) as [v [Hv Hi]]. rewrite Hv in H.
    destruct (assemble_cell v) as [x|] eqn:Ea; [|discriminate].
    destruct (assemble cols cs r) as [xs|] eqn:E; [|discriminate].
    inversion H; subst. rewrite length_app. simpl.
    rewrite (IH xs eq_refl); [|intros; apply Hint; now right].
    apply assemble_cell_width in Ea. rewrite Ea.
    destruct Hi as [->|[z [-> _]]]; reflexivity.
Qed.

Lemma assemble_inputs_length cols numeric r fv g s h :
  assemble cols (assemblerInputs numeric) r = Some fv ->
  cell cols r "GENDERclassVec" = Some (VVec g) ->
  cell cols r "STATUSclassVec" = Some (VVec s) ->
  cell cols r "HOMEOWNERclassVec" = Some (VVec h) ->
  (forall c, In c numeric -> exists v, cell cols r c = Some v /\ is_int32 v) ->
  length fv = length g + length s + length h + length numeric.
Proof.
  intros H Hg Hs Hh Hint. unfold assemblerInputs in H.
  apply assemble_app in H. destruct H as [x [y [Hx [Hy ->]]]].
  rewrite length_app, (assemble_integers _ _ _ _ Hy Hint). f_equal.
  simpl in Hx. rewrite Hg, Hs, Hh in Hx. simpl in Hx. inversion Hx; subst.
  rewrite !length_app. simpl. lia.
Qed.

(* ================================================================= *)
(** ** The train/test split *)

Lemma split_cells :
  exists lb ub, sliding2 (normalizedCumWeights split_weights) = [(0%Q, lb); (lb, ub)] /\
                lb == 7 # 10 /\ ub == 1.
Proof.
  eexists. eexists. split; [vm_compute; reflexivity|]. split; reflexivity.
Qed.

Lemma nextDouble_nonneg k : Qle_bool 0 (nextDouble k) = true.
Proof.
  apply Qle_bool_iff. unfold nextDouble, Qle. cbn [Qnum Qden].
  pose proof (N2Z.is_nonneg (k mod 2 ^ 53)). lia.
Qed.

Lemma nextDouble_below_one k ub : ub == 1 -> Qle_bool ub (nextDouble k) = false.
Proof.
  intros Hub. apply not_true_is_false. intros H. apply Qle_bool_iff in H.
  rewrite Hub in H. unfold nextDouble, Qle in H. cbn [Qnum Qden] in H.
  pose proof (N.mod_lt k (2 ^ 53) ltac:(discriminate)) as Hlt.
  apply N2Z.inj_lt in Hlt. change (Z.of_N (2 ^ 53)) with (Z.pos (2 ^ 53)) in Hlt. lia.
Qed.

(** With cells [[0, lb)] and [[lb, ub)], [ub] being one, a draw falls in
    exactly one of them. *)
Lemma draw_in_one_cell k lb ub :
  ub == 1 ->
  xorb (in_cell 0 lb (nextDouble k)) (in_cell lb ub (nextDouble k)) = true.
Proof.
  intros Hub. unfold in_cell.
  rewrite nextDouble_nonneg, (nextDouble_below_one k ub Hub). simpl.
  destruct (Qle_bool lb (nextDouble k)); reflexivity.
Qed.

Lemma sample_incl lib lb ub seed i rs r :
  In r (sample lib lb ub seed i rs) -> In r rs.
Proof.
  revert i. induction rs as [|a rs IH]; intros i H; simpl in H; [contradiction|].
  destruct (in_cell lb ub _); [destruct H as [<-|H]|]; simpl; eauto.
Qed.

Lemma sample_partition lib lb ub seed i rs :
  ub == 1 ->
  Permutation (sample lib 0 lb seed i rs ++ sample lib lb ub seed i rs) rs.
Proof.
  intros Hub. revert i. induction rs as [|a rs IH]; intros i; simpl; [constructor|].
  pose proof (draw_in_one_cell (draw lib seed i) lb ub Hub) as Hx.
  destruct (in_cell 0 lb _), (in_cell lb ub _); try discriminate; simpl.
  - apply perm_skip, IH.
  - symmetry. apply Permutation_cons_app. symmetry. apply IH.
Qed.

Lemma randomSplit_spec lib df :
  exists lb ub,
    lb == 7 # 10 /\ ub == 1 /\
    randomSplit lib split_weights split_seed df =
      Some [mkDF (columns df) (attrs df)
              (sample lib 0 lb split_seed 0 (arrange lib (rows df)));
            mkDF (columns df) (attrs df)
              (sample lib lb ub split_seed 0 (arrange lib (rows df)))].
Proof.
  destruct split_cells as [lb [ub [Hc [Hlb Hub]]]]. exists lb, ub.
  repeat split; try assumption.
  unfold randomSplit. rewrite Hc.
  replace (forallb (Qle_bool 0) split_weights && negb (Qle_bool (Qsum split_weights) 0))
    with true by (vm_compute; reflexivity).
  reflexivity.
Qed.

Lemma wf_subset cols a rs rs' :
  wf (mkDF cols a rs) -> (forall r, In r rs' -> In r rs) -> forall a', wf (mkDF cols a' rs').
Proof. unfold wf; simpl. auto. Qed.

(* ================================================================= *)
(** ** Taking the notebook apart *)

Ltac break_match H :=
  match type of H with
  | match ?a with _ => _ end = Some _ =>
      let E := fresh "E" in destruct a eqn:E; [|discriminate H]
  end.

Lemma Pipeline_fit_inv lib numeric labels alg train model :
  Pipeline_fit lib (pipeline_stages numeric labels (Classifier alg "label" "features"))
    train = Some model ->
  exists lg ls lh m, model = fitted_stages numeric lg ls lh labels alg m.
Proof.
  unfold Pipeline_fit, pipeline_stages.
  cbn [index_of_last_estimator is_estimator fit_from Nat.leb Nat.ltb].
  intros H.
  repeat match type of H with
  | option_map _ ?a = Some _ =>
      let x := fresh "x" in let E := fresh "E" in
      apply option_map_Some in H; destruct H as [x [E ->]]; rename E into H
  | match ?a with _ => _ end = Some _ =>
      let E := fresh "E" in destruct a eqn:E; [|discriminate H]
  end.
  inversion H; subst; clear H.
  cbn [fit_stage] in E, E2, E5, E10.
  apply option_map_Some in E, E2, E5.
  destruct E as [lg [_ ->]], E2 as [ls [_ ->]], E5 as [lh [_ ->]].
  assert (exists m, s2 = ClassificationModel alg "features" m) as [m ->].
  { destruct alg; apply option_map_Some in E10; destruct E10 as [m [_ ->]]; eauto. }
  exists lg, ls, lh, m. reflexivity.
Qed.

Lemma prepare_cells_inv lib pdf p :
  prepare_cells lib pdf = Some p ->
  exists sdf0 labels,
    numericColumns (pd_columns pdf) = Some (pr_numeric p) /\
    pr_assemblerInputs p = assemblerInputs (pr_numeric p) /\
    pr_assembler p = VectorAssembler (assemblerInputs (pr_numeric p)) "features" /\
    createDataFrame pdf = Some sdf0 /\
    fit_labels lib CHURNRISK sdf0 = Some labels /\
    pr_labelIndexer p = StringIndexerModel CHURNRISK "label" labels /\
    cast_columns (string_to_int lib) (pr_numeric p) sdf0 = Some (pr_spark_df_churn p) /\
    pr_stages p = 0 /\
    pr_heap p = [[StringIndexer "GENDER" "GENDERIndex";
                  OneHotEncoder "GENDERIndex" "GENDERclassVec";
                  StringIndexer "STATUS" "STATUSIndex";
                  OneHotEncoder "STATUSIndex" "STATUSclassVec";
                  StringIndexer "HOMEOWNER" "HOMEOWNERIndex";
                  OneHotEncoder "HOMEOWNERIndex" "HOMEOWNERclassVec"]].
Proof.
  unfold prepare_cells. intros H.
  destruct (numericColumns (pd_columns pdf)) as [numeric|] eqn:En; [|discriminate].
  cbn [new_list fst snd length add_categorical_stages categoricalColumns iadd deref
       nth_error Py.set_nth app append] in H.
  destruct (createDataFrame pdf) as [sdf0|] eqn:Ec; [|discriminate].
  destruct (fit_stage lib (StringIndexer CHURNRISK "label") sdf0) as [li|] eqn:El;
    [|discriminate].
  cbn [fit_stage] in El. apply option_map_Some in El. destruct El as [labels [El ->]].
  destruct (cast_columns (string_to_int lib) numeric sdf0) as [sdf|] eqn:Ecast;
    [|discriminate].
  inversion H; subst; clear H.
  cbn [pr_numeric pr_heap pr_stages pr_labelIndexer pr_spark_df_churn
       pr_assemblerInputs pr_assembler].
  exists sdf0, labels. repeat split; assumption.
Qed.

Lemma train_cells_inv lib pdf t :
  train_cells lib pdf = Some t ->
  exists p sdf0 labels,
    prepare_cells lib pdf = Some p /\
    tr_numeric t = pr_numeric p /\
    tr_assemblerInputs t = pr_assemblerInputs p /\
    tr_spark_df_churn t = pr_spark_df_churn p /\
    numericColumns (pd_columns pdf) = Some (tr_numeric t) /\
    tr_assemblerInputs t = assemblerInputs (tr_numeric t) /\
    createDataFrame pdf = Some sdf0 /\
    fit_labels lib CHURNRISK sdf0 = Some labels /\
    tr_labelIndexer t = StringIndexerModel CHURNRISK "label" labels /\
    cast_columns (string_to_int lib) (tr_numeric t) sdf0 = Some (tr_spark_df_churn t) /\
    randomSplit lib split_weights split_seed (tr_spark_df_churn t)
      = Some [tr_train t; tr_test t] /\
    tr_stages t = 0 /\ getStages (tr_pipeline t) = 0 /\
    tr_heap t = [pipeline_stages (tr_numeric t) labels rf] /\
    Pipeline_fit lib (pipeline_stages (tr_numeric t) labels rf) (tr_train t)
      = Some (tr_model t).
Proof.
  unfold train_cells. intros H.
  destruct (prepare_cells lib pdf) as [p|] eqn:Ep; [|discriminate].
  destruct (prepare_cells_inv _ _ _ Ep) as
    (sdf0 & labels & Hn & Hi & Ha & Hc & Hl & Hli & Hcast & Hs & Hh).
  rewrite Hh, Hs, Hli, Ha in H.
  cbn [iadd deref nth_error Py.set_nth app labels_of] in H.
  destruct (randomSplit lib split_weights split_seed (pr_spark_df_churn p))
    as [splits|] eqn:Es; [|discriminate].
  destruct splits as [|train [|test [|? ?]]]; try discriminate.
  cbn [getStages deref nth_error] in H.
  change (Pipeline_fit lib ?l train) with
    (Pipeline_fit lib (pipeline_stages (pr_numeric p) labels rf) train) in H.
  destruct (Pipeline_fit lib (pipeline_stages (pr_numeric p) labels rf) train)
    as [model|] eqn:Ef; [|discriminate].
  inversion H; subst; clear H. cbn [tr_numeric tr_assemblerInputs tr_labelIndexer
    tr_spark_df_churn tr_heap tr_stages tr_pipeline tr_train tr_test tr_model getStages].
  exists p, sdf0, labels. repeat split; try assumption; reflexivity.
Qed.

Lemma trained_frames lib pdf t :
  train_cells lib pdf = Some t ->
  let sdf := tr_spark_df_churn t in
  columns sdf = pd_columns pdf /\ wf sdf /\
  (forall r, In r (rows sdf) -> integer_cells (tr_numeric t) (columns sdf) r) /\
  columns (tr_train t) = columns sdf /\ columns (tr_test t) = columns sdf /\
  (forall r, In r (rows (tr_train t)) -> In r (rows sdf)) /\
  (forall r, In r (rows (tr_test t)) -> In r (rows sdf)) /\
  Permutation (rows (tr_train t) ++ rows (tr_test t)) (rows sdf).
Proof.
  intros H. apply train_cells_inv in H.
  destruct H as (p & sdf0 & labels & _ & _ & _ & _ & _ & _ & Hc & _ & _ & Hcast & Hs & _).
  apply createDataFrame_spec in Hc. destruct Hc as [Hc0 [_ [_ Hwf0]]].
  apply cast_columns_spec in Hcast. destruct Hcast as [Hc1 [_ F]].
  destruct (randomSplit_spec lib (tr_spark_df_churn t)) as [lb [ub [_ [Hub Hsp]]]].
  rewrite Hsp in Hs. inversion Hs as [[Htr Hte]]. clear Hs.
  cbn zeta. cbn [columns rows].
  assert (Harr : forall r, In r (arrange lib (rows (tr_spark_df_churn t))) ->
                           In r (rows (tr_spark_df_churn t))).
  { intros r. apply Permutation_in, arrange_perm. }
  repeat split.
  - congruence.
  - intros r' Hr'. destruct (Forall2_In_r _ _ _ _ F Hr') as [r [Hr [Hl _]]].
    rewrite Hl, Hc1. now apply Hwf0.
  - intros r' Hr' c Hc. destruct (Forall2_In_r _ _ _ _ F Hr') as [r [Hr [_ Hcells]]].
    destruct (proj1 (Hcells c) Hc) as [v [w [_ [Hw Hcw]]]].
    exists w. rewrite Hc1. split; [assumption | eapply cast_int32; eauto].
  - intros r Hr. apply Harr. eapply sample_incl; eauto.
  - intros r Hr. apply Harr. eapply sample_incl; eauto.
  - etransitivity; [apply sample_partition; assumption | apply arrange_perm].
Qed.

Lemma transform_app lib a b df res :
  transform lib (a ++ b) df = Some res ->
  exists d, transform lib a df = Some d /\ transform lib b d = Some res.
Proof.
  revert df. induction a as [|s a IH]; intros df H; simpl in *.
  - eauto.
  - destruct (transform_stage lib s df); [|discriminate]. now apply IH.
Qed.

Lemma features_ok_extends numeric cols cols' r r' :
  extends cols cols' r r' -> features_ok numeric cols r -> features_ok numeric cols' r'.
Proof.
  intros He [g [s [h [fv [Hg [Hs [Hh [Hf Hl]]]]]]]].
  exists g, s, h, fv. repeat split; auto.
Qed.

Lemma integer_cells_extends names cols cols' r r' :
  extends cols cols' r r' -> integer_cells names cols r -> integer_cells names cols' r'.
Proof.
  intros He Hi c Hc. destruct (Hi c Hc) as [v [Hv Hint]]. eauto.
Qed.

Lemma stage_keeps lib (P : list string -> Row -> Prop) s df df' :
  (forall cols cols' r r', extends cols cols' r r' -> P cols r -> P cols' r') ->
  transform_stage lib s df = Some df' -> wf df -> all_rows P df -> all_rows P df'.
Proof.
  intros Hmono H Hwf Hall r' Hr'.
  destruct (transform_stage_extends _ _ _ _ H Hwf) as [_ F].
  destruct (Forall2_In_r _ _ _ _ F Hr') as [r [Hr He]]. eauto.
Qed.

Lemma transform_keeps lib (P : list string -> Row -> Prop) ss df df' :
  (forall cols cols' r r', extends cols cols' r r' -> P cols r -> P cols' r') ->
  transform lib ss df = Some df' -> wf df -> all_rows P df -> all_rows P df'.
Proof.
  intros Hmono H Hwf Hall r' Hr'.
  destruct (transform_extends _ _ _ _ H Hwf) as [_ F].
  destruct (Forall2_In_r _ _ _ _ F Hr') as [r [Hr He]]. eauto.
Qed.

Lemma has_vector_extends c cols cols' r r' :
  extends cols cols' r r' -> has_vector c cols r -> has_vector c cols' r'.
Proof. intros He [x Hx]. exists x. auto. Qed.

Lemma fitted_features lib numeric lg ls lh labels alg m df res :
  wf df -> all_rows (integer_cells numeric) df ->
  transform lib (fitted_stages numeric lg ls lh labels alg m) df = Some res ->
  all_rows (features_ok numeric) res.
Proof.
  intros Hwf Hint H. unfold fitted_stages in H. cbn [transform] in H.
  repeat break_match H. inversion H; subst; clear H.
  (* well-formedness along the chain *)
  pose proof (transform_stage_extends _ _ _ _ E Hwf) as [W1 _].
  pose proof (transform_stage_extends _ _ _ _ E0 W1) as [W2 _].
  pose proof (transform_stage_extends _ _ _ _ E1 W2) as [W3 _].
  pose proof (transform_stage_extends _ _ _ _ E2 W3) as [W4 _].
  pose proof (transform_stage_extends _ _ _ _ E3 W4) as [W5 _].
  pose proof (transform_stage_extends _ _ _ _ E4 W5) as [W6 _].
  pose proof (transform_stage_extends _ _ _ _ E5 W6) as [W7 _].
  pose proof (transform_stage_extends _ _ _ _ E6 W7) as [W8 _].
  pose proof (transform_stage_extends _ _ _ _ E7 W8) as [W9 _].
  (* the one-hot vectors, carried to the assembler's input *)
  assert (G : all_rows (has_vector "GENDERclassVec") d5).
  { pose proof (OneHotEncoder_vector _ _ _ _ _ E0 W1) as G.
    eapply stage_keeps; [apply has_vector_extends|exact E5|assumption|].
    eapply stage_keeps; [apply has_vector_extends|exact E4|assumption|].
    eapply stage_keeps; [apply has_vector_extends|exact E3|assumption|].
    eapply stage_keeps; [apply has_vector_extends|exact E2|assumption|].
    eapply stage_keeps; [apply has_vector_extends|exact E1|assumption|].
    exact G. }
  assert (S : all_rows (has_vector "STATUSclassVec") d5).
  { pose proof (OneHotEncoder_vector _ _ _ _ _ E2 W3) as S.
    eapply stage_keeps; [apply has_vector_extends|exact E5|assumption|].
    eapply stage_keeps; [apply has_vector_extends|exact E4|assumption|].
    eapply stage_keeps; [apply has_vector_extends|exact E3|assumption|].
    exact S. }
  assert (Hh : all_rows (has_vector "HOMEOWNERclassVec") d5).
  { pose proof (OneHotEncoder_vector _ _ _ _ _ E4 W5) as Hh.
    eapply stage_keeps; [apply has_vector_extends|exact E5|assumption|].
    exact Hh. }
  assert (I : all_rows (integer_cells numeric) d5).
  { eapply stage_keeps; [apply integer_cells_extends|exact E5|assumption|].
    eapply stage_keeps; [apply integer_cells_extends|exact E4|assumption|].
    eapply stage_keeps; [apply integer_cells_extends|exact E3|assumption|].
    eapply stage_keeps; [apply integer_cells_extends|exact E2|assumption|].
    eapply stage_keeps; [apply integer_cells_extends|exact E1|assumption|].
    eapply stage_keeps; [apply integer_cells_extends|exact E0|assumption|].
    eapply stage_keeps; [apply integer_cells_extends|exact E|assumption|].
    exact Hint. }
  (* the assembler *)
  assert (A : all_rows (features_ok numeric) d6).
  { intros r' Hr'.
    pose proof (VectorAssembler_features _ _ _ _ _ E6 W7) as F.
    destruct (Forall2_In_r _ _ _ _ F Hr') as [r [Hr [fv [Ha [Hf He]]]]].
    destruct (G r Hr) as [g Hg], (S r Hr) as [s Hs], (Hh r Hr) as [h Hhv].
    exists g, s, h, fv. repeat split; auto.
    eapply assemble_inputs_length; eauto. apply I, Hr. }
  eapply stage_keeps; [apply features_ok_extends|exact E8|assumption|].
  eapply stage_keeps; [apply features_ok_extends|exact E7|assumption|].
  exact A.
Qed.

Lemma run_inv lib pdf n :
  run lib pdf = Some n ->
  let t := nb_trained n in
  train_cells lib pdf = Some t /\
  exists res labels score_csv,
    transform lib (tr_model t) (tr_test t) = Some res /\
    select results_columns res = Some (nb_results n) /\
    Model_Precision (nb_results n) = Some (nb_precision n) /\
    evaluate res = Some (nb_evaluation n) /\
    feature_importance_plot (tr_model t) (pd_columns pdf) = Some (nb_plot n) /\
    tr_heap t = [pipeline_stages (tr_numeric t) labels rf] /\
    nb_heap n = [pipeline_stages (tr_numeric t) labels nb] /\
    nb_stages_nb n = tr_stages t /\
    getStages (nb_pipeline_nb n) = tr_stages t /\
    Pipeline_fit lib (pipeline_stages (tr_numeric t) labels nb) (tr_train t)
      = Some (nb_model_nb n) /\
    write_score_CSV (tr_test t) = Some score_csv /\
    nb_trace n =
      [StoreModel (tr_model t) (pipeline_stages (tr_numeric t) labels nb) (tr_train t);
       CreateDeployment "Trading Customer Churn Deployment";
       GetScoringUrl;
       Score scoring_payload;
       Save "TradingChurnRiskClassificationSparkML" (tr_model t) (tr_test t);
       WriteCsv score_csv;
       WriteCsv (write_eval_CSV (tr_test t))].
Proof.
  unfold run. intros H.
  destruct (train_cells lib pdf) as [t|] eqn:Et; [|discriminate].
  pose proof (train_cells_inv _ _ _ Et) as
    (p & sdf0 & labels & _ & _ & _ & _ & _ & _ & _ & _ & _ & _ & _ & Hst & Hp & Hh & _).
  destruct (transform lib (tr_model t) (tr_test t)) as [res|] eqn:Er; [|discriminate].
  destruct (select results_columns res) as [results|] eqn:Es; [|discriminate].
  destruct (Model_Precision results) as [prec|] eqn:Ep; [|discriminate].
  destruct (evaluate res) as [ev|] eqn:Ee; [|discriminate].
  destruct (feature_importance_plot (tr_model t) (pd_columns pdf)) as [plot|] eqn:Ef;
    [|discriminate].
  rewrite Hh, Hst, Hp in H.
  cbn [setitem deref nth_error Py.setitem_neg pipeline_stages length Nat.leb andb
       Nat.sub Py.set_nth option_map getStages] in H.
  change [StringIndexer "GENDER" "GENDERIndex";
          OneHotEncoder "GENDERIndex" "GENDERclassVec";
          StringIndexer "STATUS" "STATUSIndex";
          OneHotEncoder "STATUSIndex" "STATUSclassVec";
          StringIndexer "HOMEOWNER" "HOMEOWNERIndex";
          OneHotEncoder "HOMEOWNERIndex" "HOMEOWNERclassVec";
          StringIndexerModel CHURNRISK "label" labels;
          VectorAssembler (assemblerInputs (tr_numeric t)) "features";
          nb;
          IndexToString "prediction" "predictedLabel" labels]
    with (pipeline_stages (tr_numeric t) labels nb) in H.
  destruct (Pipeline_fit lib (pipeline_stages (tr_numeric t) labels nb) (tr_train t))
    as [model_nb|] eqn:Enb; [|discriminate].
  destruct (transform lib model_nb (tr_test t)) as [res_nb|]; [|discriminate].
  destruct (Model_Precision res_nb) as [prec_nb|]; [|discriminate].
  destruct (write_score_CSV (tr_test t)) as [score_csv|] eqn:Ew; [|discriminate].
  inversion H; subst; clear H. cbn [nb_trained nb_results nb_precision nb_evaluation
    nb_plot nb_heap nb_stages_nb nb_pipeline_nb nb_model_nb nb_trace getStages].
  split; [reflexivity|]. exists res, labels, score_csv.
  repeat split; try assumption; try reflexivity; symmetry; assumption.
Qed.

Lemma ran_trained : train_cells Example.lib Example.df_churn_pd = Some Ran.trained.
Proof. vm_compute. reflexivity. Qed.

Lemma ran_scored :
  transform Example.lib (tr_model Ran.trained) (tr_test Ran.trained) = Some Ran.scored.
Proof. vm_compute. reflexivity. Qed.

Lemma ran_notebook : run Example.lib Example.df_churn_pd = Some Ran.notebook.
Proof. vm_compute. reflexivity. Qed.

(* ================================================================= *)
(** ** The label and the customer id among the features *)

Lemma assemble_ext cols cols' inputs r r' :
  (forall c, In c inputs -> cell cols r c = cell cols' r' c) ->
  assemble cols inputs r = assemble cols' inputs r'.
Proof.
  induction inputs as [|c cs IH]; intros H; simpl; [reflexivity|].
  rewrite (H c (or_introl eq_refl)), IH; [reflexivity|].
  intros; apply H; now right.
Qed.


(** [remove] drops the first CHURNRISK only: were the label to head two
    columns, the second one would stay in the list. *)
Lemma label_kept_when_duplicated :
  numericColumns ["ID"; "GENDER"; "CHURNRISK"; "CHURNRISK"] = Some ["ID"; "CHURNRISK"].
Proof. reflexivity. Qed.

Lemma label_excluded_when_unique (names : list string) :
  count_occ string_dec names CHURNRISK = 1 ->
  exists numeric,
    numericColumns names = Some numeric /\
    ~ In CHURNRISK (assemblerInputs numeric).
Proof.
  intros Hcount.
  assert (Hin : In CHURNRISK (non_categoricalColumns names)).
  { apply (count_occ_In string_dec).
    rewrite non_categorical_count by apply CHURNRISK_not_categorical. lia. }
  destruct (remove_total _ _ Hin) as [numeric Hrem].
  exists numeric. unfold numericColumns. split; [assumption|].
  unfold assemblerInputs. intros H. apply in_app_or in H. destruct H as [H|H].
  - now apply classVec_not_label.
  - apply (count_occ_In string_dec) in H.
    pose proof (remove_count _ _ _ Hrem) as Hc.
    rewrite non_categorical_count in Hc by apply CHURNRISK_not_categorical. lia.
Qed.

(** Fitting the label indexer needs Spark to resolve CHURNRISK, which it
    does only for a name that heads exactly one column. *)
Lemma fit_labels_unique lib name df labels :
  fit_labels lib name df = Some labels -> count_occ string_dec (columns df) name = 1.
Proof.
  unfold fit_labels, resolve. intros H.
  destruct (count_occ string_dec (columns df) name =? 1) eqn:E; [|discriminate].
  now apply Nat.eqb_eq.
Qed.

(** C1: in every run of the data-preparation cells (which takes a frame
    with a CHURNRISK column), the VectorAssembler is built over the three
    one-hot classVec columns followed by the remaining non-categorical
    columns, and this input list does not contain CHURNRISK; so no
    component of the assembled feature vector is derived from the label:
    two rows that agree on every column but CHURNRISK assemble to the same
    vector. *)
Theorem C1_label_excluded lib pdf p :
  prepare_cells lib pdf = Some p ->
  In CHURNRISK (pd_columns pdf) /\
  pr_assembler p = VectorAssembler (pr_assemblerInputs p) "features" /\
  pr_assemblerInputs p
    = ["GENDERclassVec"; "STATUSclassVec"; "HOMEOWNERclassVec"] ++ pr_numeric p /\
  ~ In CHURNRISK (pr_assemblerInputs p) /\
  forall cols r r',
    (forall c, c <> CHURNRISK -> cell cols r c = cell cols r' c) ->
    assemble cols (pr_assemblerInputs p) r = assemble cols (pr_assemblerInputs p) r'.
Proof.
  intros H. apply prepare_cells_inv in H.
  destruct H as (sdf0 & labels & Hn & Hi & Ha & Hc & Hl & _).
  apply createDataFrame_spec in Hc. destruct Hc as [Hc _].
  apply fit_labels_unique in Hl. rewrite Hc in Hl.
  destruct (label_excluded_when_unique _ Hl) as [numeric [Hn' Hnot]].
  assert (numeric = pr_numeric p) as -> by congruence.
  assert (Hin : In CHURNRISK (pd_columns pdf)).
  { apply (count_occ_In string_dec). lia. }
  rewrite Ha, Hi. repeat split; try assumption.
  intros cols r r' Hagree. apply assemble_ext.
  intros c Hcin. apply Hagree. intros ->. contradiction.
Qed.

Lemma C1_label_excluded_witness :
  prepare_cells Example.lib Example.df_churn_pd = Some Ran.prepared /\
  In CHURNRISK (pd_columns Example.df_churn_pd) /\
  ~ In CHURNRISK (pr_assemblerInputs Ran.prepared).
Proof.
  assert (H1 : prepare_cells Example.lib Example.df_churn_pd = Some Ran.prepared)
    by (vm_compute; reflexivity).
  destruct (C1_label_excluded _ _ _ H1) as (H2 & _ & _ & H3 & _).
  repeat split; assumption.
Defined.



(* ================================================================= *)
(** ** The assembled feature vector *)

Lemma trained_model lib pdf t :
  train_cells lib pdf = Some t ->
  exists labels lg ls lh m,
    tr_model t = fitted_stages (tr_numeric t) lg ls lh labels RandomForest m /\
    tr_heap t = [pipeline_stages (tr_numeric t) labels rf] /\
    tr_stages t = 0 /\ getStages (tr_pipeline t) = 0.
Proof.
  intros H. apply train_cells_inv in H.
  destruct H as (p & sdf0 & labels & _ & _ & _ & _ & _ & _ & _ & _ & _ & _ & _ & Hs & Hp & Hh & Hfit).
  apply Pipeline_fit_inv in Hfit. destruct Hfit as [lg [ls [lh [m Hm]]]].
  exists labels, lg, ls, lh, m. auto.
Qed.

(** C2: for every row that the fitted model produces from the train or
    the test split, the row carries the three one-hot vectors (for GENDER,
    STATUS, HOMEOWNER) and a feature vector whose length is the sum of
    their three lengths plus the number of numeric (non-categorical,
    non-label) columns. *)
Theorem C2_feature_vector_length lib pdf t df res r :
  train_cells lib pdf = Some t ->
  df = tr_train t \/ df = tr_test t ->
  transform lib (tr_model t) df = Some res ->
  In r (rows res) ->
  exists g s h fv,
    cell (columns res) r "GENDERclassVec" = Some (VVec g) /\
    cell (columns res) r "STATUSclassVec" = Some (VVec s) /\
    cell (columns res) r "HOMEOWNERclassVec" = Some (VVec h) /\
    cell (columns res) r "features" = Some (VVec fv) /\
    length fv = length g + length s + length h + length (tr_numeric t).
Proof.
  intros Ht Hdf Hres Hr.
  destruct (trained_model _ _ _ Ht) as [labels [lg [ls [lh [m [Hm _]]]]]].
  pose proof (trained_frames _ _ _ Ht) as F. cbn zeta in F.
  destruct F as [_ [Hwf [Hint [Hctr [Hcte [Htr [Hte _]]]]]]].
  rewrite Hm in Hres.
  assert (Hsub : forall x, In x (rows df) -> In x (rows (tr_spark_df_churn t))).
  { destruct Hdf as [-> | ->]; assumption. }
  assert (Hcols : columns df = columns (tr_spark_df_churn t)).
  { destruct Hdf as [-> | ->]; assumption. }
  assert (Hwf' : wf df).
  { intros x Hx. rewrite Hcols. apply Hwf, Hsub, Hx. }
  assert (Hint' : all_rows (integer_cells (tr_numeric t)) df).
  { intros x Hx. rewrite Hcols. apply Hint, Hsub, Hx. }
  exact (fitted_features _ _ _ _ _ _ _ _ _ _ Hwf' Hint' Hres r Hr).
Qed.

Lemma C2_feature_vector_length_witness :
  train_cells Example.lib Example.df_churn_pd = Some Ran.trained /\
  transform Example.lib (tr_model Ran.trained) (tr_test Ran.trained) = Some Ran.scored /\
  In (hd [] (rows Ran.scored)) (rows Ran.scored) /\
  exists g s h fv,
    cell (columns Ran.scored) (hd [] (rows Ran.scored)) "GENDERclassVec" = Some (VVec g) /\
    cell (columns Ran.scored) (hd [] (rows Ran.scored)) "STATUSclassVec" = Some (VVec s) /\
    cell (columns Ran.scored) (hd [] (rows Ran.scored)) "HOMEOWNERclassVec" = Some (VVec h) /\
    cell (columns Ran.scored) (hd [] (rows Ran.scored)) "features" = Some (VVec fv) /\
    length fv = length g + length s + length h + length (tr_numeric Ran.trained).
Proof.
  assert (H1 : train_cells Example.lib Example.df_churn_pd = Some Ran.trained)
    by (vm_compute; reflexivity).
  assert (H2 : transform Example.lib (tr_model Ran.trained) (tr_test Ran.trained)
               = Some Ran.scored) by (vm_compute; reflexivity).
  assert (H3 : In (hd [] (rows Ran.scored)) (rows Ran.scored)) by (left; reflexivity).
  repeat split; try assumption.
  exact (C2_feature_vector_length _ _ _ _ _ _ H1 (or_intror eq_refl) H2 H3).
Defined.

(* ================================================================= *)
(** ** The split of the notebook *)



(* ================================================================= *)
(** ** The stage lists *)

(** C3 (what the code does): when the run completes, the fitted model is
    the ordered composition of the categorical indexers and encoders, the
    label indexer, the assembler, the random-forest model and the label
    decoder; the list object behind [pipeline] held the random-forest
    classifier when the model was fit, but [stages_nb] is that same
    object, so after [stages_nb[-2] = nb] the stages of [pipeline] have
    NaiveBayes in the classifier position, and that is the pipeline
    [store_model] receives, together with the random-forest model. *)
Theorem C3_stored_pipeline_is_mutated lib pdf n :
  run lib pdf = Some n ->
  exists labels lg ls lh m,
    tr_model (nb_trained n)
      = fitted_stages (tr_numeric (nb_trained n)) lg ls lh labels RandomForest m /\
    nb_stages_nb n = tr_stages (nb_trained n) /\
    deref (tr_heap (nb_trained n)) (getStages (tr_pipeline (nb_trained n)))
      = Some (pipeline_stages (tr_numeric (nb_trained n)) labels rf) /\
    deref (nb_heap n) (getStages (tr_pipeline (nb_trained n)))
      = Some (pipeline_stages (tr_numeric (nb_trained n)) labels nb) /\
    hd_error (nb_trace n)
      = Some (StoreModel (tr_model (nb_trained n))
                (pipeline_stages (tr_numeric (nb_trained n)) labels nb)
                (tr_train (nb_trained n))) /\
    Py.getitem_neg 2 (pipeline_stages (tr_numeric (nb_trained n)) labels nb) = Some nb /\
    Py.getitem_neg 2 (tr_model (nb_trained n))
      = Some (ClassificationModel RandomForest "features" m).
Proof.
  intros H. apply run_inv in H. cbn zeta in H.
  destruct H as [Ht [res [labels [csv [_ [_ [_ [_ [_ [Hh [Hh' [Hs [_ [_ [_ Htr]]]]]]]]]]]]]]].
  destruct (trained_model _ _ _ Ht) as [labels' [lg [ls [lh [m [Hm [Hh2 [_ Hp]]]]]]]].
  assert (labels' = labels) as ->.
  { rewrite Hh in Hh2. unfold pipeline_stages in Hh2. inversion Hh2. reflexivity. }
  exists labels, lg, ls, lh, m.
  rewrite Hp, Hh, Hh', Htr, Hm. repeat split; try reflexivity. assumption.
Qed.

Lemma C3_stored_pipeline_is_mutated_witness :
  run Example.lib Example.df_churn_pd = Some Ran.notebook /\
  exists labels lg ls lh m,
    tr_model (nb_trained Ran.notebook)
      = fitted_stages (tr_numeric (nb_trained Ran.notebook)) lg ls lh labels RandomForest m /\
    hd_error (nb_trace Ran.notebook)
      = Some (StoreModel (tr_model (nb_trained Ran.notebook))
                (pipeline_stages (tr_numeric (nb_trained Ran.notebook)) labels nb)
                (tr_train (nb_trained Ran.notebook))).
Proof.
  assert (H1 : run Example.lib Example.df_churn_pd = Some Ran.notebook)
    by (vm_compute; reflexivity).
  split; [exact H1|].
  destruct (C3_stored_pipeline_is_mutated _ _ _ H1)
    as [labels [lg [ls [lh [m [H2 [_ [_ [_ [H3 _]]]]]]]]]].
  exists labels, lg, ls, lh, m. split; assumption.
Defined.

(* ================================================================= *)
(** ** Accuracy *)

Lemma filter_length_perm {A} (f : A -> bool) l l' :
  Permutation l l' -> length (filter f l) = length (filter f l').
Proof.
  induction 1 as [|x l l' _ IH|x y l|l1 l2 l3 _ IH1 _ IH2]; simpl.
  - reflexivity.
  - destruct (f x); simpl; congruence.
  - destruct (f x), (f y); reflexivity.
  - congruence.
Qed.

(** C4: the accuracy printed as "Model Precision" does not depend on the
    order of the rows of the results dataset: two frames with the same
    schema whose rows are a permutation of each other give the same
    count(label == prediction) / count(rows), or both raise on no rows. *)
Theorem C4_accuracy_row_order (cols : list string) (a a' : list (string * list string))
  (rs rs' : list Row) :
  Permutation rs rs' ->
  Model_Precision (mkDF cols a rs) = Model_Precision (mkDF cols a' rs').
Proof.
  intros HP. unfold Model_Precision. cbn [columns rows].
  rewrite (filter_length_perm _ _ _ HP), (Permutation_length HP). reflexivity.
Qed.

Lemma C4_accuracy_row_order_witness :
  Permutation (rows (nb_results Ran.notebook)) (rev (rows (nb_results Ran.notebook))) /\
  Model_Precision (nb_results Ran.notebook) = Some (1 # 2) /\
  Model_Precision (mkDF (columns (nb_results Ran.notebook)) []
                     (rev (rows (nb_results Ran.notebook)))) = Some (1 # 2).
Proof.
  assert (H : Permutation (rows (nb_results Ran.notebook))
                (rev (rows (nb_results Ran.notebook)))) by apply Permutation_rev.
  split; [exact H|]. split; [reflexivity|].
  rewrite <- (C4_accuracy_row_order (columns (nb_results Ran.notebook))
                (attrs (nb_results Ran.notebook)) [] _ _ H).
  reflexivity.
Defined.

(** *** [MulticlassMetrics] *)

Section MetricsFacts.

Variable K : Type.
Variable K_dec : forall x y : K, {x = y} + {x <> y}.







End MetricsFacts.

(** *** The evaluation cell *)










(* ================================================================= *)
(** ** The CSV exports *)

Lemma drop_cells_spec name cols r :
  length r = length cols ->
  combine (filter (fun c => negb (String.eqb c name)) cols) (drop_cells name cols r)
  = without name cols r /\
  length (drop_cells name cols r)
  = length (filter (fun c => negb (String.eqb c name)) cols).
Proof.
  unfold without. revert r. induction cols as [|c cs IH]; intros [|v vs] Hl;
    simpl in *; try discriminate; auto.
  destruct (IH vs ltac:(lia)) as [IH1 IH2].
  destruct (String.eqb c name); simpl; [auto|]. rewrite IH1, IH2. auto.
Qed.

Lemma filter_not_In name cols :
  ~ In name (filter (fun c => negb (String.eqb c name)) cols).
Proof.
  intros H. apply filter_In in H. destruct H as [_ H].
  rewrite String.eqb_refl in H. discriminate.
Qed.

(** C6: when the run completes, its last two outward calls write the two
    CSV files, both taken from the same [test] frame.  The batch-score
    file has the test columns without CHURNRISK as header and one record
    per test row, in order, whose (column, cell) pairs are those of the
    test row without the CHURNRISK pair; the evaluation file has all test
    columns, CHURNRISK among them, and the test rows unchanged. *)
Theorem C6_csv_exports lib pdf n :
  run lib pdf = Some n ->
  exists score,
    nth_error (nb_trace n) 5 = Some (WriteCsv score) /\
    nth_error (nb_trace n) 6 = Some (WriteCsv (write_eval_CSV (tr_test (nb_trained n)))) /\
    csv_header score
      = filter (fun c => negb (String.eqb c CHURNRISK)) (columns (tr_test (nb_trained n))) /\
    ~ In CHURNRISK (csv_header score) /\
    Forall2 (fun r r' =>
               length r' = length (csv_header score) /\
               combine (csv_header score) r'
               = without CHURNRISK (columns (tr_test (nb_trained n))) r)
      (rows (tr_test (nb_trained n))) (csv_records score) /\
    In CHURNRISK (columns (tr_test (nb_trained n))) /\
    csv_header (write_eval_CSV (tr_test (nb_trained n))) = columns (tr_test (nb_trained n)) /\
    csv_records (write_eval_CSV (tr_test (nb_trained n))) = rows (tr_test (nb_trained n)).
Proof.
  intros H. pose proof (run_inv _ _ _ H) as I. cbn zeta in I.
  destruct I as [Ht [res [labels [score [_ [_ [_ [_ [_ [_ [_ [_ [_ [_ [Hw Htr]]]]]]]]]]]]]]].
  exists score. rewrite Htr. cbn [nth_error].
  pose proof (trained_frames _ _ _ Ht) as F. cbn zeta in F.
  destruct F as [_ [Hwf [_ [_ [Hcte [_ [Hte _]]]]]]].
  assert (Hwf' : wf (tr_test (nb_trained n))).
  { intros x Hx. rewrite Hcte. apply Hwf, Hte, Hx. }
  unfold write_score_CSV, drop, toPandas in Hw. cbn [pd_columns pd_rows] in Hw.
  destruct (Py.contains (columns (tr_test (nb_trained n))) CHURNRISK) eqn:Ec;
    [|discriminate].
  cbn [option_map to_csv pd_columns pd_rows] in Hw. inversion Hw; subst score; clear Hw.
  cbn [csv_header csv_records write_eval_CSV to_csv toPandas pd_columns pd_rows].
  repeat split.
  - apply filter_not_In.
  - revert Hwf'. unfold wf. generalize (rows (tr_test (nb_trained n))) as l.
    induction l as [|r l IH]; intros Hl; simpl; constructor.
    + destruct (drop_cells_spec CHURNRISK _ r (Hl r (or_introl eq_refl))) as [H1 H2].
      split; assumption.
    + apply IH. intros x Hx. apply Hl. now right.
  - now apply contains_In.
Qed.

Lemma C6_csv_exports_witness :
  run Example.lib Example.df_churn_pd = Some Ran.notebook /\
  exists score,
    nth_error (nb_trace Ran.notebook) 5 = Some (WriteCsv score) /\
    ~ In CHURNRISK (csv_header score) /\
    length (csv_records score) = 2.
Proof.
  assert (H1 : run Example.lib Example.df_churn_pd = Some Ran.notebook)
    by (vm_compute; reflexivity).
  split; [exact H1|].
  destruct (C6_csv_exports _ _ _ H1) as [score [H2 [_ [_ [H3 [F _]]]]]].
  exists score. split; [exact H2|]. split; [exact H3|].
  transitivity (length (rows (tr_test (nb_trained Ran.notebook))));
    [symmetry; exact (Forall2_length F) | reflexivity].
Defined.

(* ================================================================= *)
(** ** The scoring request *)



(* ================================================================= *)
(** ** The feature-importance plot *)

Lemma insert_index_perm vals i l : Permutation (insert_index vals i l) (i :: l).
Proof.
  induction l as [|j l IH]; simpl; [reflexivity|].
  destruct (Qle_bool _ _); [reflexivity|].
  rewrite IH. apply perm_swap.
Qed.

Lemma argsort_perm vals : Permutation (argsort vals) (seq 0 (length vals)).
Proof.
  unfold argsort. induction (seq 0 (length vals)) as [|i l IH]; simpl; [reflexivity|].
  rewrite insert_index_perm. now apply perm_skip.
Qed.

Lemma take_indices_Some {A} (a : list A) idx :
  (exists l, take_indices a idx = Some l) <-> Forall (fun i => i < length a) idx.
Proof.
  unfold take_indices. split.
  - intros [l H]. apply mapM_Forall2 in H. apply Forall_forall. intros i Hi.
    destruct (Forall2_In_l _ _ _ _ H Hi) as [y [_ Hy]].
    apply nth_error_Some. congruence.
  - intros H. apply mapM_total. intros i Hi.
    rewrite Forall_forall in H. specialize (H i Hi).
    destruct (nth_error a i) eqn:E; [eauto|].
    apply nth_error_None in E. lia.
Qed.

Lemma argsort_in_bounds {A} (a : list A) vals :
  (exists l, take_indices a (argsort vals) = Some l) <-> length vals <= length a.
Proof.
  rewrite take_indices_Some. split.
  - intros H. destruct (length vals) as [|k] eqn:E; [lia|].
    rewrite Forall_forall in H. apply (H k).
    apply (Permutation_in _ (Permutation_sym (argsort_perm vals))).
    rewrite E. apply in_seq. lia.
  - intros H. apply Forall_forall. intros i Hi.
    apply (Permutation_in _ (argsort_perm vals)) in Hi. apply in_seq in Hi. lia.
Qed.

(** The plot cell goes through exactly when the model stores no more
    importances than the raw frame has columns. *)
Lemma plot_in_bounds model features featC m :
  Py.getitem_neg 2 model = Some (ClassificationModel RandomForest featC m) ->
  (exists p, feature_importance_plot model features = Some p)
  <-> length (sv_values (featureImportances m)) <= length features.
Proof.
  intros Hm. unfold feature_importance_plot. rewrite Hm.
  rewrite <- (argsort_in_bounds features).
  destruct (proj2 (argsort_in_bounds (sv_values (featureImportances m))
                     (sv_values (featureImportances m))) (le_n _)) as [w ->].
  destruct (take_indices features _) as [t|]; split; eauto.
  - intros [p Hp]. discriminate.
  - intros [l Hl]. discriminate.
Qed.

(** Even when the indexing stays in bounds the ticks are those of the
    raw frame, not of the features: in the run on three marital statuses
    the least important feature, the one-hot entry of GENDER, is labelled
    ID, and the most important one is labelled with the label column. *)
Lemma plot_labels_are_raw_columns :
  hd_error (tick_labels (nb_plot Ran.notebook)) = Some "ID" /\
  last (tick_labels (nb_plot Ran.notebook)) "" = CHURNRISK /\
  hd_error (tr_assemblerInputs (nb_trained Ran.notebook)) = Some "GENDERclassVec".
Proof. repeat split. Qed.


(* ================================================================= *)
(** * Further properties of the notebook *)

(** ** The column lists *)

Lemma remove_None x l : Py.remove x l = None <-> ~ In x l.
Proof.
  split.
  - intros H Hin. destruct (remove_total _ _ Hin) as [r Hr]. congruence.
  - induction l as [|a l IH]; intros H; simpl; [reflexivity|].
    destruct (String.eqb a x) eqn:E.
    + apply String.eqb_eq in E. exfalso. apply H. now left.
    + rewrite IH; [reflexivity|]. intros Hin. apply H. now right.
Qed.

Lemma remove_split x l r :
  Py.remove x l = Some r ->
  exists pre post, l = pre ++ x :: post /\ ~ In x pre /\ r = pre ++ post.
Proof.
  revert r. induction l as [|a l IH]; intros r H; simpl in H; [discriminate|].
  destruct (String.eqb a x) eqn:E.
  - apply String.eqb_eq in E. subst a. inversion H; subst.
    exists [], r. simpl. auto.
  - destruct (Py.remove x l) as [r'|] eqn:R; [|discriminate].
    inversion H; subst. destruct (IH r' eq_refl) as (pre & post & -> & Hn & ->).
    exists (a :: pre), post. repeat split.
    apply String.eqb_neq in E. intros [Ha|Hp]; [congruence | contradiction].
Qed.

(** X1: the cell [non_categoricalColumns.remove('CHURNRISK')] raises
    exactly when the frame has no column called CHURNRISK. *)
Theorem X1_remove_raises_without_label (names : list string) :
  numericColumns names = None <-> ~ In CHURNRISK names.
Proof.
  unfold numericColumns. rewrite remove_None, non_categorical_In.
  pose proof CHURNRISK_not_categorical. tauto.
Qed.

(** X2: when the remove succeeds it takes out the first CHURNRISK of the
    non-categorical columns and nothing else: the order of the other
    columns is kept, and a column other than CHURNRISK is left in the list
    exactly when the frame has it and it is not categorical. *)
Theorem X2_remove_takes_first_label (names numeric : list string) :
  numericColumns names = Some numeric ->
  (exists pre post,
      non_categoricalColumns names = pre ++ CHURNRISK :: post /\
      ~ In CHURNRISK pre /\ numeric = pre ++ post) /\
  length numeric + 1 = length (non_categoricalColumns names) /\
  forall c, c <> CHURNRISK ->
            (In c numeric <-> In c names /\ ~ In c categoricalColumns).
Proof.
  unfold numericColumns. intros H. split; [now apply remove_split|]. split.
  - apply remove_length in H. lia.
  - intros c Hc. rewrite (remove_In_other _ _ _ _ H Hc). apply non_categorical_In.
Qed.

Lemma X2_remove_takes_first_label_witness :
  numericColumns ["ID"; "GENDER"; "AGE"; "CHURNRISK"] = Some ["ID"; "AGE"] /\
  length ["ID"; "AGE"] + 1 = length (non_categoricalColumns ["ID"; "GENDER"; "AGE"; "CHURNRISK"]).
Proof.
  assert (H : numericColumns ["ID"; "GENDER"; "AGE"; "CHURNRISK"] = Some ["ID"; "AGE"])
    by reflexivity.
  split; [exact H|].
  exact (proj1 (proj2 (X2_remove_takes_first_label _ _ H))).
Defined.

(** X3: the remove cell cannot be run twice on a frame with one label
    column: after a first successful remove, a second
    [non_categoricalColumns.remove('CHURNRISK')] raises exactly when the
    frame has a single CHURNRISK column. *)
Theorem X3_second_remove_raises (names numeric : list string) :
  numericColumns names = Some numeric ->
  (Py.remove CHURNRISK numeric = None <-> count_occ string_dec names CHURNRISK = 1).
Proof.
  unfold numericColumns. intros H. rewrite remove_None.
  pose proof (remove_count _ _ _ H) as Hc.
  rewrite non_categorical_count in Hc by apply CHURNRISK_not_categorical.
  rewrite (count_occ_not_In string_dec). lia.
Qed.

Lemma X3_second_remove_raises_witness :
  numericColumns Example.columns17 = Some (pr_numeric Ran.prepared) /\
  Py.remove CHURNRISK (pr_numeric Ran.prepared) = None.
Proof.
  assert (H : numericColumns Example.columns17 = Some (pr_numeric Ran.prepared))
    by reflexivity.
  split; [exact H|].
  apply (proj2 (X3_second_remove_raises _ _ H)). reflexivity.
Defined.

(** ** Negative indices and the store of list objects *)

Lemma neg_index_bounds k n : (1 <=? k) && (k <=? n) = true <-> 1 <= k <= n.
Proof.
  rewrite andb_true_iff, !Nat.leb_le. tauto.
Qed.

(** X4: an assignment [l[-k] = x] with [k >= 1] raises exactly when the
    list has fewer than [k] items; when it succeeds the list keeps its
    length, [l[-k]] then reads [x], and every other negative index reads
    what it read before. *)
Theorem X4_negative_index_assignment {A} (k : nat) (x : A) (l : list A) :
  1 <= k ->
  (Py.setitem_neg k x l = None <-> length l < k) /\
  forall l', Py.setitem_neg k x l = Some l' ->
    length l' = length l /\
    Py.getitem_neg k l' = Some x /\
    forall j, j <> k -> Py.getitem_neg j l' = Py.getitem_neg j l.
Proof.
  intros Hk. unfold Py.setitem_neg, Py.getitem_neg.
  destruct ((1 <=? k) && (k <=? length l)) eqn:E.
  - apply neg_index_bounds in E. split; [split; [discriminate | lia]|].
    intros l' H. inversion H; subst; clear H. rewrite set_nth_length.
    split; [reflexivity|]. split.
    + replace ((1 <=? k) && (k <=? length l)) with true
        by (symmetry; apply neg_index_bounds; lia).
      apply set_nth_same. lia.
    + intros j Hj. destruct ((1 <=? j) && (j <=? length l)) eqn:Ej; [|reflexivity].
      apply neg_index_bounds in Ej. apply set_nth_other. lia.
  - split; [|discriminate]. split; [|reflexivity]. intros _.
    destruct (Nat.lt_ge_cases (length l) k) as [Hlt|Hge]; [assumption|].
    assert (Hc : (1 <=? k) && (k <=? length l) = true) by (apply neg_index_bounds; lia).
    congruence.
Qed.

Lemma X4_negative_index_assignment_witness :
  1 <= 2 /\
  Py.setitem_neg 2 nb [rf; rf; rf] = Some [rf; nb; rf] /\
  Py.getitem_neg 2 [rf; nb; rf] = Some nb.
Proof.
  assert (H1 : 1 <= 2) by lia.
  assert (H2 : Py.setitem_neg 2 nb [rf; rf; rf] = Some [rf; nb; rf]) by reflexivity.
  split; [exact H1|]. split; [exact H2|].
  exact (proj1 (proj2 (proj2 (X4_negative_index_assignment 2 nb [rf; rf; rf] H1) _ H2))).
Defined.

Lemma deref_set_same (h : store) r l :
  r < length h -> deref (Py.set_nth r l h) r = Some l.
Proof. apply set_nth_same. Qed.

Lemma deref_set_other (h : store) r r' l :
  r' <> r -> deref (Py.set_nth r l h) r' = deref h r'.
Proof. intros H. apply set_nth_other. congruence. Qed.

Lemma deref_lt (h : store) r l : deref h r = Some l -> r < length h.
Proof. intros H. apply nth_error_Some. unfold deref in H. congruence. Qed.

(** X5: an item assignment through one name of a list object is seen
    through every name of that object and through no other object: after
    [setitem r k x], the object at [r] holds the updated list, the store
    has as many objects as before, and every other reference reads what
    it read before. *)
Theorem X5_assignment_through_alias (r : ref) (k : nat) (x : stage) (h h' : store) :
  setitem r k x h = Some h' ->
  exists l l',
    deref h r = Some l /\ Py.setitem_neg k x l = Some l' /\
    deref h' r = Some l' /\ length h' = length h /\
    forall r', r' <> r -> deref h' r' = deref h r'.
Proof.
  unfold setitem. intros H.
  destruct (deref h r) as [l|] eqn:E; [|discriminate].
  apply option_map_Some in H. destruct H as [l' [Hl' ->]].
  exists l, l'. repeat split; try assumption.
  - apply deref_set_same. eapply deref_lt; eauto.
  - apply set_nth_length.
  - intros r' Hr. now apply deref_set_other.
Qed.

Lemma X5_assignment_through_alias_witness :
  setitem 0 2 nb [[rf; rf; rf]; [rf]] = Some [[rf; nb; rf]; [rf]] /\
  deref [[rf; nb; rf]; [rf]] 0 = Some [rf; nb; rf].
Proof.
  assert (H : setitem 0 2 nb [[rf; rf; rf]; [rf]] = Some [[rf; nb; rf]; [rf]])
    by reflexivity.
  split; [exact H|].
  destruct (X5_assignment_through_alias _ _ _ _ _ H) as (l & l' & H1 & H2 & H3 & _).
  assert (Hl : l = [rf; rf; rf]) by (inversion H1; reflexivity).
  subst l. inversion H2; subst l'. exact H3.
Defined.

Lemma iadd_spec r items h l :
  deref h r = Some l ->
  exists h', iadd r items h = Some h' /\ deref h' r = Some (l ++ items) /\
             length h' = length h /\
             forall r', r' <> r -> deref h' r' = deref h r'.
Proof.
  intros H. unfold iadd. rewrite H. eexists. split; [reflexivity|]. repeat split.
  - apply deref_set_same. eapply deref_lt; eauto.
  - apply set_nth_length.
  - intros r' Hr. now apply deref_set_other.
Qed.

(** X6: the loop over the categorical columns extends the list object
    [stages] in place: for every list of categorical columns it appends,
    column by column and in order, a StringIndexer writing [c + "Index"]
    followed by a OneHotEncoder reading that column and writing
    [c + "classVec"]; what the list held before stays in front, and no
    other list object changes. *)
Theorem X6_categorical_stage_loop (cats : list string) (r : ref) (h : store)
  (l : list stage) :
  deref h r = Some l ->
  exists h',
    add_categorical_stages cats r h = Some h' /\
    deref h' r = Some (l ++ flat_map categorical_pair cats) /\
    length h' = length h /\
    forall r', r' <> r -> deref h' r' = deref h r'.
Proof.
  revert h l. induction cats as [|c cs IH]; intros h l H; simpl.
  - exists h. rewrite app_nil_r. auto.
  - destruct (iadd_spec r (categorical_pair c) h l H) as (h1 & E1 & D1 & L1 & O1).
    unfold categorical_pair in E1 at 1. rewrite E1.
    destruct (IH h1 _ D1) as (h' & E & D & L & O).
    exists h'. split; [assumption|]. split; [|split].
    + rewrite D, <- app_assoc. reflexivity.
    + congruence.
    + intros r' Hr. rewrite O, O1; auto.
Qed.

Lemma X6_categorical_stage_loop_witness :
  deref [[]] 0 = Some [] /\
  exists h',
    add_categorical_stages categoricalColumns 0 [[]] = Some h' /\
    deref h' 0 = Some ([] ++ flat_map categorical_pair categoricalColumns).
Proof.
  assert (H : deref [[]] 0 = Some (@nil stage)) by reflexivity.
  split; [exact H|].
  destruct (X6_categorical_stage_loop categoricalColumns 0 [[]] [] H)
    as (h' & H1 & H2 & _).
  exists h'. split; assumption.
Defined.

(** ** The cast loop *)

Lemma cast_columns_resolves s2i names df df' :
  cast_columns s2i names df = Some df' ->
  forall c, In c names -> count_occ string_dec (columns df) c = 1.
Proof.
  revert df. induction names as [|n ns IH]; intros df H c Hc; simpl in *; [contradiction|].
  destruct (replace_column n (cast_IntegerType s2i) df) as [df1|] eqn:R; [|discriminate].
  apply replace_column_spec in R. destruct R as (Hcols & _ & i & Hi & _).
  destruct Hc as [<-|Hc].
  - unfold resolve in Hi. destruct (_ =? 1) eqn:E; [|discriminate]. now apply Nat.eqb_eq.
  - rewrite <- Hcols. eapply IH; eauto.
Qed.

(** X7: the cast loop keeps the schema, the attributes and the number of
    rows; it can only run when each listed column heads exactly one column
    of the frame; afterwards every cell of a listed column is null or a
    32-bit integer, and every cell of any other column (the categorical
    columns, the label) is what it was. *)
Theorem X7_cast_loop_invariants (s2i : string -> option Z) (names : list string)
  (df df' : DataFrame) :
  cast_columns s2i names df = Some df' ->
  columns df' = columns df /\ attrs df' = attrs df /\
  length (rows df') = length (rows df) /\
  (forall c, In c names -> count_occ string_dec (columns df) c = 1) /\
  Forall2 (fun r r' =>
             length r' = length r /\
             (forall c, In c names ->
                        exists w, cell (columns df) r' c = Some w /\ is_int32 w) /\
             (forall c, ~ In c names -> cell (columns df) r' c = cell (columns df) r c))
    (rows df) (rows df').
Proof.
  intros H. pose proof (cast_columns_resolves _ _ _ _ H) as Hres.
  apply cast_columns_spec in H. destruct H as (Hc & Ha & F).
  repeat split; try assumption.
  - symmetry. exact (Forall2_length F).
  - eapply Forall2_impl; [|exact F]. intros r r' [Hl Hcells].
    split; [assumption|]. split.
    + intros c Hin. destruct (proj1 (Hcells c) Hin) as (v & w & _ & Hw & Hcw).
      exists w. split; [assumption | eapply cast_int32; eauto].
    + intros c Hn. exact (proj2 (Hcells c) Hn).
Qed.

Lemma X7_cast_loop_invariants_witness :
  cast_columns (fun _ => None) ["AGE"]
    (mkDF ["GENDER"; "AGE"] [] [[VStr "F"; VInt 4294967297]; [VStr "M"; VStr "n/a"]])
  = Some (mkDF ["GENDER"; "AGE"] [] [[VStr "F"; VInt 1]; [VStr "M"; VNull]]) /\
  length (rows (mkDF ["GENDER"; "AGE"] [] [[VStr "F"; VInt 1]; [VStr "M"; VNull]])) = 2.
Proof.
  assert (H : cast_columns (fun _ => None) ["AGE"]
    (mkDF ["GENDER"; "AGE"] [] [[VStr "F"; VInt 4294967297]; [VStr "M"; VStr "n/a"]])
  = Some (mkDF ["GENDER"; "AGE"] [] [[VStr "F"; VInt 1]; [VStr "M"; VNull]]))
    by reflexivity.
  split; [exact H|].
  exact (proj1 (proj2 (proj2 (X7_cast_loop_invariants _ _ _ _ H)))).
Defined.

Lemma set_nth_id {A} i (x : A) l : nth_error l i = Some x -> Py.set_nth i x l = l.
Proof.
  revert i. induction l as [|y l IH]; intros [|i] H; simpl in *; try discriminate.
  - inversion H; reflexivity.
  - f_equal. now apply IH.
Qed.

Lemma mapM_id {A} (f : A -> option A) l :
  (forall x, In x l -> f x = Some x) -> mapM f l = Some l.
Proof.
  induction l as [|x l IH]; intros H; simpl; [reflexivity|].
  rewrite (H x (or_introl eq_refl)), IH; [reflexivity|]. intros; apply H; now right.
Qed.

Lemma replace_column_fixed s2i n df i :
  resolve (columns df) n = Some i ->
  (forall r, In r (rows df) -> exists w, nth_error r i = Some w /\ is_int32 w) ->
  replace_column n (cast_IntegerType s2i) df = Some df.
Proof.
  intros Hi Hrows. unfold replace_column. rewrite Hi.
  rewrite mapM_id.
  - destruct df; reflexivity.
  - intros r Hr. destruct (Hrows r Hr) as (w & Hw & Hint). rewrite Hw.
    rewrite (cast_int32_id s2i w Hint). simpl. f_equal. now apply set_nth_id.
Qed.

(** X8: running the cast cell again changes nothing: on the frame the
    loop has produced, the same loop succeeds and returns that frame. *)
Theorem X8_cast_loop_idempotent (s2i : string -> option Z) (names : list string)
  (df df' : DataFrame) :
  cast_columns s2i names df = Some df' ->
  cast_columns s2i names df' = Some df'.
Proof.
  intros H. pose proof (cast_columns_resolves _ _ _ _ H) as Hres.
  apply cast_columns_spec in H. destruct H as (Hc & _ & F).
  assert (Hfix : forall n, In n names ->
            replace_column n (cast_IntegerType s2i) df' = Some df').
  { intros n Hn. specialize (Hres n Hn).
    destruct (resolve (columns df) n) as [i|] eqn:Hi.
    2:{ unfold resolve in Hi. rewrite Hres in Hi. simpl in Hi.
        apply find_col_None in Hi. apply (count_occ_not_In string_dec) in Hi. lia. }
    apply replace_column_fixed with (i := i); [congruence|].
    intros r' Hr'. destruct (Forall2_In_r _ _ _ _ F Hr') as (r & _ & _ & Hcells).
    destruct (proj1 (Hcells n) Hn) as (v & w & _ & Hw & Hcw).
    exists w. split; [|eapply cast_int32; eauto].
    unfold cell in Hcw. now rewrite Hi in Hcw. }
  clear Hres F. induction names as [|n ns IH]; simpl; [reflexivity|].
  rewrite (Hfix n (or_introl eq_refl)). apply IH. intros m Hm. apply Hfix. now right.
Qed.

Lemma X8_cast_loop_idempotent_witness :
  cast_columns (fun _ => None) ["AGE"]
    (mkDF ["GENDER"; "AGE"] [] [[VStr "F"; VInt 4294967297]; [VStr "M"; VStr "n/a"]])
  = Some (mkDF ["GENDER"; "AGE"] [] [[VStr "F"; VInt 1]; [VStr "M"; VNull]]) /\
  cast_columns (fun _ => None) ["AGE"]
    (mkDF ["GENDER"; "AGE"] [] [[VStr "F"; VInt 1]; [VStr "M"; VNull]])
  = Some (mkDF ["GENDER"; "AGE"] [] [[VStr "F"; VInt 1]; [VStr "M"; VNull]]).
Proof.
  assert (H : cast_columns (fun _ => None) ["AGE"]
    (mkDF ["GENDER"; "AGE"] [] [[VStr "F"; VInt 4294967297]; [VStr "M"; VStr "n/a"]])
  = Some (mkDF ["GENDER"; "AGE"] [] [[VStr "F"; VInt 1]; [VStr "M"; VNull]]))
    by reflexivity.
  split; [exact H | exact (X8_cast_loop_idempotent _ _ _ _ H)].
Defined.

(** ** The schema of a transformed frame *)

Lemma append_column_columns name f df df' :
  append_column name f df = Some df' ->
  columns df' = columns df ++ [name] /\ ~ In name (columns df) /\
  length (rows df') = length (rows df).
Proof.
  unfold append_column. intros H.
  destruct (Py.contains (columns df) name) eqn:E; [discriminate|].
  match type of H with
  | match ?m with _ => _ end = _ => destruct m as [rs|] eqn:M; [|discriminate]
  end.
  inversion H; subst; simpl. repeat split.
  - intros Hin. apply contains_In in Hin. congruence.
  - eapply mapM_length; eauto.
Qed.

Lemma transform_stage_columns lib s df df' :
  transform_stage lib s df = Some df' ->
  columns df' = columns df ++ output_columns s /\
  (forall c, In c (output_columns s) -> ~ In c (columns df)) /\
  NoDup (output_columns s) /\
  length (rows df') = length (rows df).
Proof.
  intros H. destruct s; cbn [transform_stage output_columns] in *; try discriminate.
  - apply option_map_Some in H. destruct H as [d [A ->]].
    apply append_column_columns in A. destruct A as (A1 & A2 & A3).
    unfold set_attr; simpl. repeat split; try assumption.
    + intros c [<-|[]]. assumption.
    + repeat constructor. simpl. tauto.
  - destruct (get_attr inputCol (attrs df)); [|discriminate].
    destruct (2 <=? length l); [|discriminate].
    apply append_column_columns in H. destruct H as (A1 & A2 & A3).
    repeat split; try assumption.
    + intros c [<-|[]]. assumption.
    + repeat constructor. simpl. tauto.
  - apply append_column_columns in H. destruct H as (A1 & A2 & A3).
    repeat split; try assumption.
    + intros c [<-|[]]. assumption.
    + repeat constructor. simpl. tauto.
  - match type of H with
    | match ?a with _ => _ end = _ => destruct a as [d1|] eqn:A1; [|discriminate]
    end.
    match type of H with
    | match ?a with _ => _ end = _ => destruct a as [d2|] eqn:A2; [|discriminate]
    end.
    apply append_column_columns in A1, A2, H.
    destruct A1 as (B1 & C1 & L1), A2 as (B2 & C2 & L2), H as (B3 & C3 & L3).
    rewrite B3, B2, B1, <- !app_assoc. simpl. repeat split.
    + intros c [<-|[<-|[<-|[]]]] Hin.
      * contradiction.
      * apply C2. rewrite B1. apply in_or_app. now left.
      * apply C3. rewrite B2, B1. apply in_or_app. left. apply in_or_app. now left.
    + repeat constructor; simpl; intuition discriminate.
    + congruence.
  - apply append_column_columns in H. destruct H as (A1 & A2 & A3).
    repeat split; try assumption.
    + intros c [<-|[]]. assumption.
    + repeat constructor. simpl. tauto.
Qed.

Lemma transform_columns lib ss df res :
  wf df -> transform lib ss df = Some res ->
  columns res = columns df ++ flat_map output_columns ss /\
  (forall c, In c (flat_map output_columns ss) -> ~ In c (columns df)) /\
  NoDup (flat_map output_columns ss).
Proof.
  revert df. induction ss as [|s ss IH]; intros df Hwf H; simpl in H.
  - inversion H; subst. simpl. rewrite app_nil_r. repeat split; [tauto | constructor].
  - destruct (transform_stage lib s df) as [d|] eqn:T; [|discriminate].
    pose proof (transform_stage_extends _ _ _ _ T Hwf) as [W _].
    pose proof (transform_stage_columns _ _ _ _ T) as (C & Fr & N & _).
    destruct (IH d W H) as (IC & IFr & IN). simpl. repeat split.
    + rewrite IC, C. now rewrite app_assoc.
    + intros c Hc. apply in_app_or in Hc. destruct Hc as [Hc|Hc]; [now apply Fr|].
      intros Hin. apply (IFr c Hc). rewrite C. apply in_or_app. now left.
    + apply NoDup_app; [assumption | assumption |].
      intros c Hc Hc'. apply (IFr c Hc'). rewrite C. apply in_or_app. now right.
Qed.

(** X9: whatever the fitted stages are, [transform] appends their output
    columns to the schema, in stage order, and touches nothing else: the
    appended names are pairwise distinct and none of them may already
    head a column of the input (the stage raises otherwise), the frame
    keeps its number of rows, and every row keeps the cells it had. *)
Theorem X9_transform_appends_columns (lib : Library) (ss : list stage)
  (df res : DataFrame) :
  wf df ->
  transform lib ss df = Some res ->
  columns res = columns df ++ flat_map output_columns ss /\
  NoDup (flat_map output_columns ss) /\
  (forall c, In c (flat_map output_columns ss) -> ~ In c (columns df)) /\
  length (rows res) = length (rows df) /\
  Forall2 (extends (columns df) (columns res)) (rows df) (rows res).
Proof.
  intros Hwf H. pose proof (transform_extends _ _ _ _ H Hwf) as [_ F].
  destruct (transform_columns _ _ _ _ Hwf H) as (C & Fr & N).
  repeat split; try assumption. symmetry. exact (Forall2_length F).
Qed.

Lemma X9_transform_appends_columns_witness :
  wf (tr_test Ran.trained) /\
  transform Example.lib (tr_model Ran.trained) (tr_test Ran.trained) = Some Ran.scored /\
  columns Ran.scored
  = columns (tr_test Ran.trained) ++ flat_map output_columns (tr_model Ran.trained).
Proof.
  assert (H1 : wf (tr_test Ran.trained)).
  { intros r Hr. simpl in Hr. destruct Hr as [<-|[<-|[]]]; reflexivity. }
  assert (H2 : transform Example.lib (tr_model Ran.trained) (tr_test Ran.trained)
               = Some Ran.scored) by (vm_compute; reflexivity).
  split; [exact H1|]. split; [exact H2|].
  exact (proj1 (X9_transform_appends_columns _ _ _ _ H1 H2)).
Defined.

(** ** Fitting the pipelines *)

Lemma Pipeline_fit_frames lib numeric labels alg train model :
  Pipeline_fit lib (pipeline_stages numeric labels (Classifier alg "label" "features"))
    train = Some model ->
  exists lg ls lh m d1 d2 d3 d4 d5 d6 d7 d8,
    fit_labels lib "GENDER" train = Some lg /\
    transform_stage lib (StringIndexerModel "GENDER" "GENDERIndex" lg) train = Some d1 /\
    transform_stage lib (OneHotEncoder "GENDERIndex" "GENDERclassVec") d1 = Some d2 /\
    fit_labels lib "STATUS" d2 = Some ls /\
    transform_stage lib (StringIndexerModel "STATUS" "STATUSIndex" ls) d2 = Some d3 /\
    transform_stage lib (OneHotEncoder "STATUSIndex" "STATUSclassVec") d3 = Some d4 /\
    fit_labels lib "HOMEOWNER" d4 = Some lh /\
    transform_stage lib (StringIndexerModel "HOMEOWNER" "HOMEOWNERIndex" lh) d4 = Some d5 /\
    transform_stage lib (OneHotEncoder "HOMEOWNERIndex" "HOMEOWNERclassVec") d5 = Some d6 /\
    transform_stage lib (StringIndexerModel CHURNRISK "label" labels) d6 = Some d7 /\
    transform_stage lib (VectorAssembler (assemblerInputs numeric) "features") d7 = Some d8 /\
    fit_stage lib (Classifier alg "label" "features") d8
      = Some (ClassificationModel alg "features" m) /\
    model = fitted_stages numeric lg ls lh labels alg m.
Proof.
  unfold Pipeline_fit, pipeline_stages.
  cbn [index_of_last_estimator is_estimator fit_from Nat.leb Nat.ltb].
  intros H.
  repeat match type of H with
  | option_map _ ?a = Some _ =>
      let x := fresh "x" in let E := fresh "E" in
      apply option_map_Some in H; destruct H as [x [E ->]]; rename E into H
  | match ?a with _ => _ end = Some _ =>
      let E := fresh "E" in destruct a eqn:E; [|discriminate H]
  end.
  inversion H; subst; clear H.
  cbn [fit_stage] in E, E2, E5.
  apply option_map_Some in E, E2, E5.
  destruct E as [lg [Eg ->]], E2 as [ls [Es ->]], E5 as [lh [Eh ->]].
  assert (exists m, s2 = ClassificationModel alg "features" m) as [m ->].
  { destruct alg; apply option_map_Some in E10; destruct E10 as [m [_ ->]]; eauto. }
  exists lg, ls, lh, m, d, d0, d1, d2, d3, d4, d5, d6.
  repeat split; assumption.
Qed.

Lemma transform_feature_stages lib numeric lg ls lh labels df d1 d2 d3 d4 d5 d6 d7 d8 :
  transform_stage lib (StringIndexerModel "GENDER" "GENDERIndex" lg) df = Some d1 ->
  transform_stage lib (OneHotEncoder "GENDERIndex" "GENDERclassVec") d1 = Some d2 ->
  transform_stage lib (StringIndexerModel "STATUS" "STATUSIndex" ls) d2 = Some d3 ->
  transform_stage lib (OneHotEncoder "STATUSIndex" "STATUSclassVec") d3 = Some d4 ->
  transform_stage lib (StringIndexerModel "HOMEOWNER" "HOMEOWNERIndex" lh) d4 = Some d5 ->
  transform_stage lib (OneHotEncoder "HOMEOWNERIndex" "HOMEOWNERclassVec") d5 = Some d6 ->
  transform_stage lib (StringIndexerModel CHURNRISK "label" labels) d6 = Some d7 ->
  transform_stage lib (VectorAssembler (assemblerInputs numeric) "features") d7 = Some d8 ->
  transform lib (feature_stages numeric lg ls lh labels) df = Some d8.
Proof.
  intros H1 H2 H3 H4 H5 H6 H7 H8. unfold feature_stages. cbn [transform].
  rewrite H1, H2, H3, H4, H5, H6, H7, H8. reflexivity.
Qed.

(** X10: the classifier is trained on the features the model later
    computes: when the pipeline is fit, the fitted model consists of
    eight feature stages followed by the classifier's model and the label
    decoder, and the frame the learner was given is the training frame
    transformed by those same eight stages. *)
Theorem X10_classifier_fit_on_model_features (lib : Library)
  (numeric labels : list string) (alg : algorithm) (train : DataFrame)
  (model : list stage) :
  Pipeline_fit lib (pipeline_stages numeric labels (Classifier alg "label" "features"))
    train = Some model ->
  exists lg ls lh m d,
    model = feature_stages numeric lg ls lh labels ++
            [ClassificationModel alg "features" m;
             IndexToString "prediction" "predictedLabel" labels] /\
    transform lib (feature_stages numeric lg ls lh labels) train = Some d /\
    fit_stage lib (Classifier alg "label" "features") d
      = Some (ClassificationModel alg "features" m).
Proof.
  intros H. apply Pipeline_fit_frames in H.
  destruct H as (lg & ls & lh & m & d1 & d2 & d3 & d4 & d5 & d6 & d7 & d8 &
                 _ & T1 & T2 & _ & T3 & T4 & _ & T5 & T6 & T7 & T8 & Hm & ->).
  exists lg, ls, lh, m, d8. split; [reflexivity|]. split; [|assumption].
  eapply transform_feature_stages; eauto.
Qed.

Lemma X10_classifier_fit_on_model_features_witness :
  Pipeline_fit Example.lib
    (pipeline_stages (tr_numeric Ran.trained) (labels_of (tr_labelIndexer Ran.trained))
       (Classifier RandomForest "label" "features"))
    (tr_train Ran.trained) = Some (tr_model Ran.trained) /\
  exists lg ls lh m d,
    tr_model Ran.trained
    = feature_stages (tr_numeric Ran.trained) lg ls lh
        (labels_of (tr_labelIndexer Ran.trained)) ++
      [ClassificationModel RandomForest "features" m;
       IndexToString "prediction" "predictedLabel"
         (labels_of (tr_labelIndexer Ran.trained))] /\
    transform Example.lib
      (feature_stages (tr_numeric Ran.trained) lg ls lh
         (labels_of (tr_labelIndexer Ran.trained)))
      (tr_train Ran.trained) = Some d.
Proof.
  assert (H : Pipeline_fit Example.lib
    (pipeline_stages (tr_numeric Ran.trained) (labels_of (tr_labelIndexer Ran.trained))
       (Classifier RandomForest "label" "features"))
    (tr_train Ran.trained) = Some (tr_model Ran.trained)) by (vm_compute; reflexivity).
  split; [exact H|].
  destruct (X10_classifier_fit_on_model_features _ _ _ _ _ _ H)
    as (lg & ls & lh & m & d & H1 & H2 & _).
  exists lg, ls, lh, m, d. split; assumption.
Defined.

(** X11: the comparison is like for like: in a completed run the
    naive-Bayes model and the random-forest model have the same eight
    feature stages and the same label decoder, and differ in the
    classifier stage only, which is a naive-Bayes model in the one and a
    random-forest model in the other. *)
Theorem X11_models_share_feature_stages (lib : Library) (pdf : PandasFrame)
  (n : Notebook) :
  run lib pdf = Some n ->
  exists lg ls lh labels m m_nb,
    tr_model (nb_trained n)
    = feature_stages (tr_numeric (nb_trained n)) lg ls lh labels ++
      [ClassificationModel RandomForest "features" m;
       IndexToString "prediction" "predictedLabel" labels] /\
    nb_model_nb n
    = feature_stages (tr_numeric (nb_trained n)) lg ls lh labels ++
      [ClassificationModel NaiveBayesAlg "features" m_nb;
       IndexToString "prediction" "predictedLabel" labels].
Proof.
  intros H. apply run_inv in H. cbn zeta in H.
  destruct H as (Ht & res & labels & csv & _ & _ & _ & _ & _ & Hh & _ & _ & _ & Hnb & _).
  apply train_cells_inv in Ht.
  destruct Ht as (p & sdf0 & labels' & _ & _ & _ & _ & _ & _ & _ & _ & _ & _ & _ &
                  _ & _ & Hh' & Hrf).
  assert (labels' = labels) as ->.
  { rewrite Hh in Hh'. unfold pipeline_stages in Hh'. inversion Hh'. reflexivity. }
  apply Pipeline_fit_frames in Hrf, Hnb.
  destruct Hrf as (lg & ls & lh & m & d1 & d2 & d3 & d4 & d5 & d6 & d7 & d8 &
                   G & T1 & T2 & S & T3 & T4 & O & T5 & T6 & T7 & T8 & _ & ->).
  destruct Hnb as (lg' & ls' & lh' & m' & e1 & e2 & e3 & e4 & e5 & e6 & e7 & e8 &
                   G' & U1 & U2 & S' & U3 & U4 & O' & U5 & U6 & U7 & U8 & _ & ->).
  assert (lg' = lg) as -> by congruence.
  assert (e1 = d1) as -> by congruence.
  assert (e2 = d2) as -> by congruence.
  assert (ls' = ls) as -> by congruence.
  assert (e3 = d3) as -> by congruence.
  assert (e4 = d4) as -> by congruence.
  assert (lh' = lh) as -> by congruence.
  exists lg, ls, lh, labels, m, m'. split; reflexivity.
Qed.

Lemma X11_models_share_feature_stages_witness :
  run Example.lib Example.df_churn_pd = Some Ran.notebook /\
  firstn 8 (tr_model (nb_trained Ran.notebook)) = firstn 8 (nb_model_nb Ran.notebook).
Proof.
  assert (H : run Example.lib Example.df_churn_pd = Some Ran.notebook)
    by (vm_compute; reflexivity).
  split; [exact H|].
  destruct (X11_models_share_feature_stages _ _ _ H)
    as (lg & ls & lh & labels & m & m_nb & H1 & H2).
  rewrite H1, H2. reflexivity.
Defined.

(** ** What a run needs from the input frame *)




Lemma ratio_Some m k p : ratio m k = Some p -> k <> 0 /\ p = Z.of_nat m # Pos.of_nat k.
Proof. destruct k; simpl; intros H; inversion H. split; [discriminate | reflexivity]. Qed.




(** ** Precision *)

Lemma filter_all {A} (f : A -> bool) l :
  length (filter f l) = length l <-> forall x, In x l -> f x = true.
Proof.
  induction l as [|x l IH]; simpl; [tauto|].
  pose proof (filter_length_le f l) as Hle.
  destruct (f x) eqn:E; simpl.
  - split.
    + intros H y [<-|Hy]; [assumption|]. apply IH; [lia | assumption].
    + intros H. f_equal. apply IH. auto.
  - split; [lia|]. intros H. specialize (H x (or_introl eq_refl)). congruence.
Qed.

Lemma Zpos_of_nat k : k <> 0 -> Z.pos (Pos.of_nat k) = Z.of_nat k.
Proof.
  intros H. rewrite <- positive_nat_Z, Nat2Pos.id by assumption. reflexivity.
Qed.

(** X13: the printed precision is a proper share: it is only defined on a
    results frame with at least one row, lies between 0 and 1, and is 1
    exactly when the label of every row equals its prediction. *)
Theorem X13_precision_is_a_share (results : DataFrame) (p : Q) :
  Model_Precision results = Some p ->
  rows results <> [] /\
  (0 <= p)%Q /\ (p <= 1)%Q /\
  (p == 1 <-> forall r, In r (rows results) ->
                        label_is_prediction (columns results) r = true).
Proof.
  unfold Model_Precision. intros H.
  destruct (resolve _ "label"); [|discriminate].
  destruct (resolve _ "prediction"); [|discriminate].
  apply ratio_Some in H. destruct H as [Hn ->].
  pose proof (filter_length_le (label_is_prediction (columns results)) (rows results)) as Hle.
  split; [|split; [|split]].
  - intros E. rewrite E in Hn. now apply Hn.
  - unfold Qle. simpl. lia.
  - unfold Qle. cbn [Qnum Qden]. rewrite Zpos_of_nat by assumption. lia.
  - rewrite <- filter_all. unfold Qeq. cbn [Qnum Qden].
    rewrite Zpos_of_nat by assumption. lia.
Qed.

Lemma X13_precision_is_a_share_witness :
  Model_Precision (nb_results Ran.notebook) = Some (1 # 2) /\
  rows (nb_results Ran.notebook) <> [] /\ (0 <= 1 # 2)%Q /\ (1 # 2 <= 1)%Q.
Proof.
  assert (H : Model_Precision (nb_results Ran.notebook) = Some (1 # 2)) by reflexivity.
  destruct (X13_precision_is_a_share _ _ H) as (H1 & H2 & H3 & _).
  repeat split; assumption.
Defined.

(** ** Encoding and decoding the label *)








(** ** The content of the feature vector *)

Lemma one_hot_length n i : length (one_hot n i) = n.
Proof. unfold one_hot. now rewrite length_map, length_seq. Qed.

Lemma get_attr_set lib inC outC labels df df' :
  transform_stage lib (StringIndexerModel inC outC labels) df = Some df' ->
  get_attr outC (attrs df') = Some labels.
Proof.
  cbn [transform_stage]. intros H. apply option_map_Some in H.
  destruct H as [d [_ ->]]. unfold set_attr. simpl. now rewrite String.eqb_refl.
Qed.

Lemma OneHotEncoder_rows lib inC outC labels df df' :
  get_attr inC (attrs df) = Some labels ->
  transform_stage lib (OneHotEncoder inC outC) df = Some df' -> wf df ->
  2 <= length labels /\ all_rows (has_one_hot outC (length labels - 1)) df'.
Proof.
  cbn [transform_stage]. intros Ha H Hwf. rewrite Ha in H.
  destruct (2 <=? length labels) eqn:E; [|discriminate].
  apply Nat.leb_le in E. split; [assumption|]. intros r' Hr'.
  apply append_column_spec in H; [|assumption]. destruct H as (_ & _ & _ & _ & F).
  destruct (Forall2_In_r _ _ _ _ F Hr') as (r & _ & v & Hv & _ & Hc & _).
  destruct (cell (columns df) r inC) as [w|]; [|discriminate].
  destruct (as_double w) as [q|]; [|discriminate].
  apply option_map_Some in Hv. destruct Hv as [i [_ ->]]. exists i. exact Hc.
Qed.

Lemma has_one_hot_extends c n cols cols' r r' :
  extends cols cols' r r' -> has_one_hot c n cols r -> has_one_hot c n cols' r'.
Proof. intros He [i Hi]. exists i. auto. Qed.

Lemma assemble_integers_content cols names r fv :
  assemble cols names r = Some fv ->
  integer_cells names cols r ->
  exists zs,
    Forall2 (fun c z => cell cols r c = Some (VInt z) /\ (int_min <= z <= int_max)%Z)
      names zs /\
    fv = map inject_Z zs.
Proof.
  revert fv. induction names as [|c cs IH]; intros fv H Hint; simpl in H.
  - inversion H. exists []. split; constructor.
  - destruct (Hint c (or_introl eq_refl)) as [v [Hv Hi]]. rewrite Hv in H.
    destruct (assemble_cell v) as [x|] eqn:Ea; [|discriminate].
    destruct (assemble cols cs r) as [xs|] eqn:E; [|discriminate].
    inversion H; subst; clear H.
    destruct (IH xs eq_refl) as [zs [F ->]]; [intros k Hk; apply Hint; now right|].
    destruct Hi as [->|[z [-> Hz]]]; [discriminate|].
    simpl in Ea. inversion Ea; subst. exists (z :: zs). split; [|reflexivity].
    constructor; auto.
Qed.

Lemma encoded_row_extends numeric lg ls lh cols cols' r r' :
  extends cols cols' r r' ->
  encoded_row numeric lg ls lh cols r -> encoded_row numeric lg ls lh cols' r'.
Proof.
  intros He (ig & ist & ih & zs & Hg & Hs & Hh & F & Hf).
  exists ig, ist, ih, zs. repeat split; auto.
  eapply Forall2_impl; [|exact F]. intros c z [Hc Hz]. auto.
Qed.

Lemma fitted_encoding lib numeric lg ls lh labels alg m df res :
  wf df -> all_rows (integer_cells numeric) df ->
  transform lib (fitted_stages numeric lg ls lh labels alg m) df = Some res ->
  2 <= length lg /\ 2 <= length ls /\ 2 <= length lh /\
  all_rows (encoded_row numeric lg ls lh) res.
Proof.
  intros Hwf Hint H. unfold fitted_stages in H. cbn [transform] in H.
  repeat break_match H. inversion H; subst; clear H.
  pose proof (transform_stage_extends _ _ _ _ E Hwf) as [W1 _].
  pose proof (transform_stage_extends _ _ _ _ E0 W1) as [W2 _].
  pose proof (transform_stage_extends _ _ _ _ E1 W2) as [W3 _].
  pose proof (transform_stage_extends _ _ _ _ E2 W3) as [W4 _].
  pose proof (transform_stage_extends _ _ _ _ E3 W4) as [W5 _].
  pose proof (transform_stage_extends _ _ _ _ E4 W5) as [W6 _].
  pose proof (transform_stage_extends _ _ _ _ E5 W6) as [W7 _].
  pose proof (transform_stage_extends _ _ _ _ E6 W7) as [W8 _].
  pose proof (transform_stage_extends _ _ _ _ E7 W8) as [W9 _].
  destruct (OneHotEncoder_rows _ _ _ _ _ _ (get_attr_set _ _ _ _ _ _ E) E0 W1) as [Ng G0].
  destruct (OneHotEncoder_rows _ _ _ _ _ _ (get_attr_set _ _ _ _ _ _ E1) E2 W3) as [Ns S0].
  destruct (OneHotEncoder_rows _ _ _ _ _ _ (get_attr_set _ _ _ _ _ _ E3) E4 W5) as [Nh H0].
  assert (G : all_rows (has_one_hot "GENDERclassVec" (length lg - 1)) d5).
  { eapply stage_keeps; [apply has_one_hot_extends|exact E5|assumption|].
    eapply stage_keeps; [apply has_one_hot_extends|exact E4|assumption|].
    eapply stage_keeps; [apply has_one_hot_extends|exact E3|assumption|].
    eapply stage_keeps; [apply has_one_hot_extends|exact E2|assumption|].
    eapply stage_keeps; [apply has_one_hot_extends|exact E1|assumption|].
    exact G0. }
  assert (S : all_rows (has_one_hot "STATUSclassVec" (length ls - 1)) d5).
  { eapply stage_keeps; [apply has_one_hot_extends|exact E5|assumption|].
    eapply stage_keeps; [apply has_one_hot_extends|exact E4|assumption|].
    eapply stage_keeps; [apply has_one_hot_extends|exact E3|assumption|].
    exact S0. }
  assert (Hh : all_rows (has_one_hot "HOMEOWNERclassVec" (length lh - 1)) d5).
  { eapply stage_keeps; [apply has_one_hot_extends|exact E5|assumption|].
    exact H0. }
  assert (I : all_rows (integer_cells numeric) d5).
  { eapply stage_keeps; [apply integer_cells_extends|exact E5|assumption|].
    eapply stage_keeps; [apply integer_cells_extends|exact E4|assumption|].
    eapply stage_keeps; [apply integer_cells_extends|exact E3|assumption|].
    eapply stage_keeps; [apply integer_cells_extends|exact E2|assumption|].
    eapply stage_keeps; [apply integer_cells_extends|exact E1|assumption|].
    eapply stage_keeps; [apply integer_cells_extends|exact E0|assumption|].
    eapply stage_keeps; [apply integer_cells_extends|exact E|assumption|].
    exact Hint. }
  repeat split; try assumption.
  eapply stage_keeps; [apply encoded_row_extends|exact E8|assumption|].
  eapply stage_keeps; [apply encoded_row_extends|exact E7|assumption|].
  intros r' Hr'.
  pose proof (VectorAssembler_features _ _ _ _ _ E6 W7) as F.
  destruct (Forall2_In_r _ _ _ _ F Hr') as (r & Hr & fv & Ha & Hf & He).
  destruct (G r Hr) as [ig Hg], (S r Hr) as [ist Hs], (Hh r Hr) as [ih Hhv].
  unfold assemblerInputs in Ha. apply assemble_app in Ha.
  destruct Ha as (x & y & Hx & Hy & ->).
  destruct (assemble_integers_content _ _ _ _ Hy (I r Hr)) as (zs & Fz & ->).
  simpl in Hx. rewrite Hg, Hs, Hhv in Hx. simpl in Hx. inversion Hx; subst; clear Hx.
  exists ig, ist, ih, zs. repeat split; auto.
  - eapply Forall2_impl; [|exact Fz]. intros c z [Hc Hz]. auto.
  - rewrite Hf. rewrite app_nil_r, <- !app_assoc. reflexivity.
Qed.

(** X15: every feature vector is the GENDER, STATUS and HOMEOWNER one-hot
    vectors followed by the row's numeric cells, in column order, as
    doubles, and all feature vectors have one dimension: the fitted
    indexers have at least two labels each, each one-hot vector has one
    entry less than its indexer has labels, every numeric cell of a scored
    row is a non-null 32-bit integer, and so each row produced from the
    train or the test split has
    [(|lg|-1) + (|ls|-1) + (|lh|-1) + len(numeric)] features. *)
Theorem X15_feature_vector_content (lib : Library) (pdf : PandasFrame) (t : Trained) :
  train_cells lib pdf = Some t ->
  exists lg ls lh labels m,
    tr_model t = fitted_stages (tr_numeric t) lg ls lh labels RandomForest m /\
    2 <= length lg /\ 2 <= length ls /\ 2 <= length lh /\
    forall df res r,
      df = tr_train t \/ df = tr_test t ->
      transform lib (tr_model t) df = Some res ->
      In r (rows res) ->
      encoded_row (tr_numeric t) lg ls lh (columns res) r /\
      exists fv,
        cell (columns res) r "features" = Some (VVec fv) /\
        length fv = (length lg - 1) + (length ls - 1) + (length lh - 1)
                    + length (tr_numeric t).
Proof.
  intros Ht.
  pose proof (trained_frames _ _ _ Ht) as F. cbn zeta in F.
  destruct F as (_ & Hwf & Hint & Hctr & Hcte & Htr & Hte & _).
  pose proof (train_cells_inv _ _ _ Ht) as
    (p & sdf0 & labels & _ & _ & _ & _ & _ & _ & _ & _ & _ & _ & _ & _ & _ & _ & Hfit).
  pose proof (Pipeline_fit_frames _ _ _ _ _ _ Hfit) as
    (lg & ls & lh & m & d1 & d2 & d3 & d4 & d5 & d6 & d7 & d8 &
     _ & T1 & T2 & _ & T3 & T4 & _ & T5 & T6 & _ & _ & _ & Hm).
  assert (Wtr : wf (tr_train t)).
  { intros x Hx. rewrite Hctr. apply Hwf, Htr, Hx. }
  pose proof (transform_stage_extends _ _ _ _ T1 Wtr) as [W1 _].
  pose proof (transform_stage_extends _ _ _ _ T2 W1) as [W2 _].
  pose proof (transform_stage_extends _ _ _ _ T3 W2) as [W3 _].
  pose proof (transform_stage_extends _ _ _ _ T4 W3) as [W4 _].
  pose proof (transform_stage_extends _ _ _ _ T5 W4) as [W5 _].
  destruct (OneHotEncoder_rows _ _ _ _ _ _ (get_attr_set _ _ _ _ _ _ T1) T2 W1) as [Ng _].
  destruct (OneHotEncoder_rows _ _ _ _ _ _ (get_attr_set _ _ _ _ _ _ T3) T4 W3) as [Ns _].
  destruct (OneHotEncoder_rows _ _ _ _ _ _ (get_attr_set _ _ _ _ _ _ T5) T6 W5) as [Nh _].
  exists lg, ls, lh, labels, m. repeat split; try assumption.
  - assert (Hwf' : wf df).
    { intros x Hx. destruct H as [-> | ->].
      - rewrite Hctr. apply Hwf, Htr, Hx.
      - rewrite Hcte. apply Hwf, Hte, Hx. }
    assert (Hint' : all_rows (integer_cells (tr_numeric t)) df).
    { intros x Hx. destruct H as [-> | ->].
      - rewrite Hctr. apply Hint, Htr, Hx.
      - rewrite Hcte. apply Hint, Hte, Hx. }
    rewrite Hm in H0.
    exact (proj2 (proj2 (proj2 (fitted_encoding _ _ _ _ _ _ _ _ _ _ Hwf' Hint' H0))) r H1).
  - assert (Hwf' : wf df).
    { intros x Hx. destruct H as [-> | ->].
      - rewrite Hctr. apply Hwf, Htr, Hx.
      - rewrite Hcte. apply Hwf, Hte, Hx. }
    assert (Hint' : all_rows (integer_cells (tr_numeric t)) df).
    { intros x Hx. destruct H as [-> | ->].
      - rewrite Hctr. apply Hint, Htr, Hx.
      - rewrite Hcte. apply Hint, Hte, Hx. }
    rewrite Hm in H0.
    destruct (proj2 (proj2 (proj2 (fitted_encoding _ _ _ _ _ _ _ _ _ _ Hwf' Hint' H0))) r H1)
      as (ig & ist & ih & zs & _ & _ & _ & Fz & Hf).
    eexists. split; [exact Hf|].
    rewrite !length_app, !one_hot_length, length_map, <- (Forall2_length Fz). lia.
Qed.

Lemma X15_feature_vector_content_witness :
  train_cells Example.lib Example.df_churn_pd = Some Ran.trained /\
  exists lg ls lh labels m,
    tr_model Ran.trained
    = fitted_stages (tr_numeric Ran.trained) lg ls lh labels RandomForest m /\
    2 <= length lg /\ 2 <= length ls /\ 2 <= length lh.
Proof.
  assert (H : train_cells Example.lib Example.df_churn_pd = Some Ran.trained)
    by (vm_compute; reflexivity).
  split; [exact H|].
  destruct (X15_feature_vector_content _ _ _ H)
    as (lg & ls & lh & labels & m & H1 & H2 & H3 & H4 & _).
  exists lg, ls, lh, labels, m. repeat split; assumption.
Defined.

(** ** Dropping the label column *)

Lemma drop_cells_length name cols r :
  length r = length cols ->
  length (drop_cells name cols r) + count_occ string_dec cols name = length r.
Proof.
  revert r. induction cols as [|c cs IH]; intros [|v vs] Hl; simpl in *;
    try discriminate; [reflexivity|].
  specialize (IH vs ltac:(lia)).
  destruct (string_dec c name) as [->|Hn].
  - rewrite String.eqb_refl. lia.
  - apply String.eqb_neq in Hn. rewrite Hn. simpl. lia.
Qed.

(** X16: [drop(['CHURNRISK'], axis=1)] raises exactly when the frame has
    no column of that name; when it succeeds the result has no such
    column left (a second drop raises), keeps the number of rows, and
    every record is shorter by the number of columns that had the name. *)
Theorem X16_drop_label_column (name : string) (pdf pdf' : PandasFrame) :
  (drop name pdf = None <-> ~ In name (pd_columns pdf)) /\
  (drop name pdf = Some pdf' ->
   ~ In name (pd_columns pdf') /\ drop name pdf' = None /\
   length (pd_rows pdf') = length (pd_rows pdf) /\
   Forall2 (fun r r' =>
              length r = length (pd_columns pdf) ->
              length r' + count_occ string_dec (pd_columns pdf) name = length r)
     (pd_rows pdf) (pd_rows pdf')).
Proof.
  unfold drop. pose proof (contains_In (pd_columns pdf) name) as Hc.
  destruct (Py.contains (pd_columns pdf) name) eqn:E.
  - split; [split; [discriminate|] |].
    + intros H. exfalso. apply H, Hc. reflexivity.
    + intros H. inversion H; subst; clear H. cbn [pd_columns pd_rows].
      assert (Hn : ~ In name (filter (fun c => negb (String.eqb c name)) (pd_columns pdf))).
      { intros Hin. apply filter_In in Hin. destruct Hin as [_ Hin].
        rewrite String.eqb_refl in Hin. discriminate. }
      split; [assumption|]. split; [|split].
      * destruct (Py.contains
                    (filter (fun c => negb (String.eqb c name)) (pd_columns pdf)) name)
          eqn:E2; [|reflexivity].
        apply contains_In in E2. contradiction.
      * apply length_map.
      * induction (pd_rows pdf) as [|r l IH]; simpl; constructor; [|assumption].
        apply drop_cells_length.
  - split; [split; [|reflexivity] | discriminate].
    intros _ Hin. apply Hc in Hin. discriminate.
Qed.

(** ** Selecting the result columns *)






(** ** The exported data *)

(** X18: the exported files hold the cast data, not the raw input: in a
    completed run the evaluation file has the header of the input frame,
    and each of its records is an input row after the cast loop, that is
    with its numeric cells cast to integer and its other cells unchanged. *)
Theorem X18_export_is_cast_input (lib : Library) (pdf : PandasFrame) (n : Notebook) :
  run lib pdf = Some n ->
  csv_header (write_eval_CSV (tr_test (nb_trained n))) = pd_columns pdf /\
  forall r', In r' (csv_records (write_eval_CSV (tr_test (nb_trained n)))) ->
    exists r, In r (pd_rows pdf) /\
              cast_row (string_to_int lib) (pd_columns pdf)
                (tr_numeric (nb_trained n)) r r'.
Proof.
  intros H. apply run_inv in H. cbn zeta in H. destruct H as (Ht & _).
  pose proof (trained_frames _ _ _ Ht) as F. cbn zeta in F.
  destruct F as (Hcols & _ & _ & _ & Hcte & _ & Hte & _).
  pose proof (train_cells_inv _ _ _ Ht) as
    (p & sdf0 & labels & _ & _ & _ & _ & _ & _ & Hc & _ & _ & Hcast & _).
  apply createDataFrame_spec in Hc. destruct Hc as (Hc0 & Hr0 & _).
  apply cast_columns_spec in Hcast. destruct Hcast as (_ & _ & Fc).
  cbn [write_eval_CSV to_csv toPandas csv_header csv_records pd_columns pd_rows].
  split; [congruence|]. intros r' Hr'. apply Hte in Hr'.
  destruct (Forall2_In_r _ _ _ _ Fc Hr') as (r & Hr & Hcr).
  exists r. rewrite <- Hr0, <- Hc0. split; assumption.
Qed.

Lemma X18_export_is_cast_input_witness :
  run Example.lib Example.df_churn_pd = Some Ran.notebook /\
  csv_header (write_eval_CSV (tr_test (nb_trained Ran.notebook)))
  = pd_columns Example.df_churn_pd.
Proof.
  assert (H : run Example.lib Example.df_churn_pd = Some Ran.notebook)
    by (vm_compute; reflexivity).
  split; [exact H | exact (proj1 (X18_export_is_cast_input _ _ _ H))].
Defined.

(** ** Per-class metrics *)

Section ClassCountFacts.

Variable K : Type.
Variable K_dec : forall x y : K, {x = y} + {x <> y}.

Lemma lookup_add_key k k' n m :
  lookup K K_dec k (add_key K K_dec k' n m) = bump K K_dec k (lookup K K_dec k m) (k', n).
Proof.
  induction m as [|[k2 n2] m IH]; unfold bump in *; simpl in *.
  - destruct (K_dec k k'); reflexivity.
  - destruct (K_dec k' k2) as [->|N]; simpl.
    + destruct (K_dec k k2); reflexivity.
    + destruct (K_dec k k2) as [->|N2].
      * destruct (K_dec k2 k'); [congruence | reflexivity].
      * exact IH.
Qed.

Lemma lookup_fold k kvs m0 :
  lookup K K_dec k
    (fold_left (fun m kv => add_key K K_dec (fst kv) (snd kv) m) kvs m0)
  = fold_left (bump K K_dec k) kvs (lookup K K_dec k m0).
Proof.
  revert m0. induction kvs as [|[k1 n1] kvs IH]; intros m0; simpl; [reflexivity|].
  rewrite IH, lookup_add_key. reflexivity.
Qed.

Lemma bump_Some k kvs x :
  fold_left (bump K K_dec k) kvs (Some x) = Some (x + sum_for K K_dec k kvs).
Proof.
  revert x. induction kvs as [|kv kvs IH]; intros x; simpl.
  - f_equal. unfold sum_for. simpl. lia.
  - unfold bump at 2, sum_for, is_key. simpl.
    destruct (K_dec k (fst kv)); rewrite IH; unfold sum_for, is_key; simpl; f_equal; lia.
Qed.

Lemma bump_None k kvs :
  (In k (map fst kvs) ->
   fold_left (bump K K_dec k) kvs None = Some (sum_for K K_dec k kvs)) /\
  (~ In k (map fst kvs) -> fold_left (bump K K_dec k) kvs None = None).
Proof.
  induction kvs as [|kv kvs [IH1 IH2]]; simpl.
  - split; [contradiction | reflexivity].
  - unfold bump at 2 4, sum_for, is_key. simpl.
    destruct (K_dec k (fst kv)) as [E|N].
    + split; [|intros H; exfalso; apply H; left; congruence].
      intros _. rewrite bump_Some. reflexivity.
    + split.
      * intros [H|H]; [congruence|]. now apply IH1.
      * intros H. apply IH2. tauto.
Qed.

Lemma lookup_reduceByKey k kvs :
  (In k (map fst kvs) ->
   lookup K K_dec k (reduceByKey K K_dec kvs) = Some (sum_for K K_dec k kvs)) /\
  (~ In k (map fst kvs) -> lookup K K_dec k (reduceByKey K K_dec kvs) = None).
Proof. unfold reduceByKey. rewrite lookup_fold. simpl. apply bump_None. Qed.

Lemma sum_for_none k kvs : ~ In k (map fst kvs) -> sum_for K K_dec k kvs = 0.
Proof.
  unfold sum_for, is_key. induction kvs as [|kv kvs IH]; simpl; [reflexivity|].
  intros H. destruct (K_dec k (fst kv)); [exfalso; apply H; left; congruence|].
  apply IH. tauto.
Qed.

Lemma sum_for_tp l pl :
  sum_for K K_dec l
    (map (fun p => (snd p, if K_dec (snd p) (fst p) then 1 else 0)) pl)
  = class_tp K K_dec l pl.
Proof.
  unfold sum_for, class_tp, is_key. induction pl as [|p pl IH]; simpl; [reflexivity|].
  destruct (K_dec l (snd p)); simpl; [|exact IH].
  destruct (K_dec (snd p) (fst p)); destruct (K_dec l (fst p)); simpl;
    try congruence; exact IH.
Qed.

Lemma sum_for_fp l pl :
  sum_for K K_dec l
    (map (fun p => (fst p, if K_dec (fst p) (snd p) then 0 else 1)) pl)
  = class_fp K K_dec l pl.
Proof.
  unfold sum_for, class_fp, is_key. induction pl as [|p pl IH]; simpl; [reflexivity|].
  destruct (K_dec l (fst p)); simpl; [|exact IH].
  destruct (K_dec (fst p) (snd p)); destruct (K_dec l (snd p)); simpl;
    try congruence; exact IH.
Qed.

Lemma sum_for_count l pl :
  sum_for K K_dec l (map (fun p => (snd p, 1)) pl) = class_count K K_dec l pl.
Proof.
  unfold sum_for, class_count, is_key. induction pl as [|p pl IH]; simpl; [reflexivity|].
  destruct (K_dec l (snd p)); simpl; congruence.
Qed.

Lemma class_tp_le l pl : class_tp K K_dec l pl <= class_count K K_dec l pl.
Proof.
  unfold class_tp, class_count. induction pl as [|p pl IH]; simpl; [lia|].
  destruct (is_key K K_dec l (snd p)); simpl; [|exact IH].
  destruct (is_key K K_dec l (fst p)); simpl; lia.
Qed.

Lemma class_count_pos l pl : In l (map snd pl) -> 0 < class_count K K_dec l pl.
Proof.
  unfold class_count, is_key. induction pl as [|p pl IH]; simpl; [contradiction|].
  intros [H|H].
  - destruct (K_dec l (snd p)); [simpl; lia | congruence].
  - destruct (K_dec l (snd p)); simpl; [lia | now apply IH].
Qed.

Lemma lookup_fp l pl :
  match lookup K K_dec l (fpByClass K K_dec pl) with Some n => n | None => 0 end
  = class_fp K K_dec l pl.
Proof.
  unfold fpByClass.
  set (kvs := map (fun p => (fst p, if K_dec (fst p) (snd p) then 0 else 1)) pl).
  destruct (lookup_reduceByKey l kvs) as [H1 H2].
  destruct (in_dec K_dec l (map fst kvs)) as [Hin|Hn].
  - rewrite (H1 Hin). apply sum_for_fp.
  - rewrite (H2 Hn). rewrite <- sum_for_fp. symmetry. now apply sum_for_none.
Qed.

Lemma lookup_tp l pl :
  (In l (map snd pl) ->
   lookup K K_dec l (tpByClass K K_dec pl) = Some (class_tp K K_dec l pl)) /\
  (~ In l (map snd pl) -> lookup K K_dec l (tpByClass K K_dec pl) = None).
Proof.
  assert (Ktp : map fst (map (fun p : K * K =>
                  (snd p, if K_dec (snd p) (fst p) then 1 else 0)) pl) = map snd pl)
    by (rewrite map_map; reflexivity).
  unfold tpByClass. rewrite <- sum_for_tp, <- Ktp. apply lookup_reduceByKey.
Qed.

Lemma lookup_count l pl :
  In l (map snd pl) ->
  lookup K K_dec l (labelCountByClass K K_dec pl) = Some (class_count K K_dec l pl).
Proof.
  intros H. unfold labelCountByClass. rewrite <- sum_for_count.
  apply lookup_reduceByKey. rewrite map_map. exact H.
Qed.

(** X19: the per-class metrics are quotients of row counts.  For a class
    that occurs among the labels, precision is the share of the rows
    predicted as the class that have it as label (0 when no row is
    predicted as the class) and recall the share of the rows of the class
    that are predicted as it; for a class that is no label of any row the
    metrics raise a missing-key error. *)
Theorem X19_class_metrics_by_counts (l : K) (pl : list (K * K)) :
  (In l (map snd pl) ->
   precision K K_dec pl l
   = Some (if class_tp K K_dec l pl + class_fp K K_dec l pl =? 0 then 0%Q
           else qdiv (class_tp K K_dec l pl)
                  (class_tp K K_dec l pl + class_fp K K_dec l pl)) /\
   recall K K_dec pl l
   = Some (qdiv (class_tp K K_dec l pl) (class_count K K_dec l pl)) /\
   class_tp K K_dec l pl <= class_count K K_dec l pl /\
   0 < class_count K K_dec l pl) /\
  (~ In l (map snd pl) ->
   precision K K_dec pl l = None /\ recall K K_dec pl l = None /\
   fMeasure K K_dec pl l = None).
Proof.
  split; intros H.
  - unfold precision, recall.
    rewrite (proj1 (lookup_tp l pl) H), (lookup_count l pl H), lookup_fp.
    split; [reflexivity|]. split; [reflexivity|].
    split; [apply class_tp_le | now apply class_count_pos].
  - unfold fMeasure, precision, recall.
    rewrite (proj2 (lookup_tp l pl) H). repeat split; reflexivity.
Qed.

End ClassCountFacts.

Lemma X19_class_metrics_by_counts_witness :
  In 1%Q (map snd [(1%Q, 1%Q); (0%Q, 1%Q); (1%Q, 0%Q)]) /\
  recall Q Q_dec [(1%Q, 1%Q); (0%Q, 1%Q); (1%Q, 0%Q)] 1%Q = Some (1 # 2)%Q.
Proof.
  assert (H : In 1%Q (map snd [(1%Q, 1%Q); (0%Q, 1%Q); (1%Q, 0%Q)]))
    by (simpl; tauto).
  split; [exact H|].
  exact (proj1 (proj2 (proj1 (X19_class_metrics_by_counts Q Q_dec 1%Q _) H))).
Defined.

(** ** The lines printed per class *)

Lemma insert_sorted_perm x l : Permutation (insert_sorted x l) (x :: l).
Proof.
  induction l as [|y l IH]; simpl; [reflexivity|].
  destruct (Qle_bool x y); [reflexivity|].
  rewrite IH. apply perm_swap.
Qed.

Lemma sorted_perm l : Permutation (sorted l) l.
Proof.
  unfold sorted. induction l as [|x l IH]; simpl; [reflexivity|].
  rewrite insert_sorted_perm. now apply perm_skip.
Qed.

Lemma insert_sorted_sorted x l :
  StronglySorted Qle l -> StronglySorted Qle (insert_sorted x l).
Proof.
  induction 1 as [|y l Hs IH Hy]; simpl.
  - constructor; constructor.
  - destruct (Qle_bool x y) eqn:E.
    + apply Qle_bool_iff in E. constructor; [constructor; assumption|].
      constructor; [assumption|].
      eapply Forall_impl; [|exact Hy]. intros z Hz. eapply Qle_trans; eassumption.
    + assert (Hyx : (y <= x)%Q).
      { apply Qlt_le_weak, Qnot_le_lt. intros H. apply Qle_bool_iff in H. congruence. }
      constructor; [assumption|].
      apply Forall_forall. intros z Hz.
      apply (Permutation_in _ (insert_sorted_perm x l)) in Hz.
      destruct Hz as [<-|Hz]; [assumption|].
      rewrite Forall_forall in Hy. now apply Hy.
Qed.

Lemma sorted_sorted l : StronglySorted Qle (sorted l).
Proof.
  unfold sorted. induction l as [|x l IH]; simpl; [constructor|].
  now apply insert_sorted_sorted.
Qed.

Lemma map_snd_combine {A B} (a : list A) (b : list B) :
  length a = length b -> map snd (combine a b) = b.
Proof.
  revert b. induction a as [|x a IH]; intros [|y b] H; simpl in *;
    try discriminate; [reflexivity|].
  f_equal. apply IH. lia.
Qed.

Lemma qdiv_bounds m n : m <= n -> 0 < n -> (0 <= qdiv m n <= 1)%Q.
Proof.
  intros Hm Hn. unfold qdiv, Qle. simpl. rewrite Zpos_of_nat by lia. lia.
Qed.

Lemma harmonic_bounds p r :
  (0 <= p <= 1)%Q -> (0 <= r <= 1)%Q -> ~ (p + r == 0)%Q ->
  (0 <= (1 + 1) * p * r / (1 * p + r) <= 1)%Q.
Proof.
  intros [Hp0 Hp1] [Hr0 Hr1] Hn.
  assert (Hpos : (0 < 1 * p + r)%Q).
  { destruct (Qlt_le_dec 0 (1 * p + r)) as [H|H]; [assumption|].
    exfalso. apply Hn. lra. }
  split.
  - apply Qle_shift_div_l; [assumption|]. nra.
  - apply Qle_shift_div_r; [assumption|]. nra.
Qed.

Lemma fMeasure_bounds (l : Q) pl :
  In l (map snd pl) ->
  exists q, fMeasure Q Q_dec pl l = Some q /\ (0 <= q <= 1)%Q.
Proof.
  intros H.
  pose proof (class_tp_le Q Q_dec l pl) as Hle.
  pose proof (class_count_pos Q Q_dec l pl H) as Hpos.
  unfold fMeasure, precision, recall.
  rewrite (proj1 (lookup_tp Q Q_dec l pl) H), (lookup_count Q Q_dec l pl H), lookup_fp.
  set (p := if _ =? 0 then 0%Q else _). set (r := qdiv _ _).
  assert (Bp : (0 <= p <= 1)%Q).
  { subst p. destruct (_ =? 0) eqn:E; [split; discriminate|].
    apply Nat.eqb_neq in E. apply qdiv_bounds; lia. }
  assert (Br : (0 <= r <= 1)%Q) by (apply qdiv_bounds; assumption).
  eexists. split; [reflexivity|].
  destruct (Qeq_bool (p + r) 0) eqn:E; [split; discriminate|].
  apply harmonic_bounds; try assumption.
  intros H0. apply Qeq_bool_iff in H0. congruence.
Qed.

(** X20: the evaluation cell prints one F-measure line per distinct label
    of the scored rows, in increasing order of the label and without
    repetition; the F-measure of each printed class is defined and lies
    between 0 and 1. *)
Theorem X20_class_lines (res : DataFrame) (ev : Evaluation) :
  evaluate res = Some ev ->
  exists labels,
    column_floats "label" res = Some labels /\
    StronglySorted Qle (map fst (by_class ev)) /\
    NoDup (map fst (by_class ev)) /\
    (forall l, In l (map fst (by_class ev)) <-> In l labels) /\
    forall l f, In (l, f) (by_class ev) ->
                exists q, f = Some q /\ (0 <= q <= 1)%Q.
Proof.
  unfold evaluate. intros H.
  destruct (column_floats "prediction" res) as [ps|] eqn:Ep; [|discriminate].
  destruct (column_floats "label" res) as [ls|] eqn:El; [|discriminate].
  inversion H; subst; clear H. cbn [by_class]. exists ls.
  assert (Hfst : map fst (map (fun l => (l, fMeasure Q Q_dec (combine ps ls) l))
                            (sorted (nodup Q_dec ls))) = sorted (nodup Q_dec ls)).
  { rewrite map_map. apply map_id. }
  assert (Hin : forall l, In l (sorted (nodup Q_dec ls)) <-> In l ls).
  { intros l. split; intros Hl.
    - apply (nodup_In Q_dec). revert Hl. apply Permutation_in, sorted_perm.
    - apply (nodup_In Q_dec) in Hl. revert Hl.
      apply Permutation_in. symmetry. apply sorted_perm. }
  rewrite Hfst. split; [reflexivity|]. split; [apply sorted_sorted|].
  split.
  { eapply Permutation_NoDup; [symmetry; apply sorted_perm | apply NoDup_nodup]. }
  split; [exact Hin|].
  intros l f Hlf. apply in_map_iff in Hlf. destruct Hlf as (l' & E & Hl').
  inversion E; subst; clear E. apply Hin in Hl'.
  apply fMeasure_bounds. rewrite map_snd_combine; [assumption|].
  unfold column_floats in Ep, El.
  apply mapM_length in Ep, El. congruence.
Qed.

Lemma X20_class_lines_witness :
  evaluate Ran.scored = Some (nb_evaluation Ran.notebook) /\
  NoDup (map fst (by_class (nb_evaluation Ran.notebook))).
Proof.
  assert (H : evaluate Ran.scored = Some (nb_evaluation Ran.notebook))
    by (vm_compute; reflexivity).
  split; [exact H|].
  destruct (X20_class_lines _ _ H) as (labels & _ & _ & Hnd & _). exact Hnd.
Defined.

(** ** The bars and ticks of the importance plot *)

Lemma insert_index_sorted vals i l :
  StronglySorted (fun a b => (nth a vals 0 <= nth b vals 0)%Q) l ->
  StronglySorted (fun a b => (nth a vals 0 <= nth b vals 0)%Q) (insert_index vals i l).
Proof.
  induction 1 as [|j l Hs IH Hj]; simpl.
  - constructor; constructor.
  - destruct (Qle_bool (nth i vals 0%Q) (nth j vals 0%Q)) eqn:E.
    + apply Qle_bool_iff in E. constructor; [constructor; assumption|].
      constructor; [assumption|].
      eapply Forall_impl; [|exact Hj]. intros z Hz. eapply Qle_trans; eassumption.
    + assert (Hji : (nth j vals 0 <= nth i vals 0)%Q).
      { apply Qlt_le_weak, Qnot_le_lt. intros H. apply Qle_bool_iff in H. congruence. }
      constructor; [assumption|].
      apply Forall_forall. intros z Hz.
      apply (Permutation_in _ (insert_index_perm vals i l)) in Hz.
      destruct Hz as [<-|Hz]; [assumption|].
      rewrite Forall_forall in Hj. now apply Hj.
Qed.

Lemma argsort_sorted vals :
  StronglySorted (fun a b => (nth a vals 0 <= nth b vals 0)%Q) (argsort vals).
Proof.
  unfold argsort. induction (seq 0 (length vals)) as [|i l IH]; simpl; [constructor|].
  now apply insert_index_sorted.
Qed.

Lemma StronglySorted_map {A B} (R : B -> B -> Prop) (f : A -> B) l :
  StronglySorted (fun a b => R (f a) (f b)) l -> StronglySorted R (map f l).
Proof.
  induction 1 as [|a l Hs IH Ha]; simpl; constructor; [assumption|].
  apply Forall_forall. intros y Hy. apply in_map_iff in Hy.
  destruct Hy as (x & <- & Hx). rewrite Forall_forall in Ha. now apply Ha.
Qed.

Lemma take_indices_map {A} (d : A) a idx l :
  take_indices a idx = Some l -> l = map (fun i => nth i a d) idx.
Proof.
  unfold take_indices. intros H. apply mapM_Forall2 in H.
  induction H as [|i v idx l Hi _ IH]; simpl; [reflexivity|].
  f_equal; [|exact IH]. symmetry. now apply nth_error_nth.
Qed.

Lemma map_nth_seq {A} (d : A) a k :
  k <= length a -> map (fun i => nth i a d) (seq 0 k) = firstn k a.
Proof.
  revert k. induction a as [|x a IH]; intros [|k] Hk; simpl in *; try lia;
    try reflexivity.
  f_equal. rewrite <- seq_shift, map_map. simpl. apply IH. lia.
Qed.

Lemma Forall2_zip {A B C} (P : A -> B -> Prop) (Q : A -> C -> Prop) la lb lc :
  Forall2 P la lb -> Forall2 Q la lc ->
  Forall2 (fun b c => exists a, P a b /\ Q a c) lb lc.
Proof.
  intros H. revert lc. induction H as [|a b la lb Hab _ IH]; intros lc HQ;
    inversion HQ; subst; constructor; eauto.
Qed.

(** X21: when the plot cell completes, the bars are the stored
    importances in increasing order, and every bar is labelled with the
    column of the raw frame that stands at the position its importance
    has in the importance vector; the tick labels are therefore the
    first columns of the raw frame, as many as there are importances,
    whatever the features of the model are. *)
Theorem X21_plot_bars_and_ticks (model : list stage) (features : list string)
    (p : ImportancePlot) :
  feature_importance_plot model features = Some p ->
  exists featC m,
    Py.getitem_neg 2 model = Some (ClassificationModel RandomForest featC m) /\
    length (sv_values (featureImportances m)) <= length features /\
    StronglySorted Qle (bar_widths p) /\
    Permutation (bar_widths p) (sv_values (featureImportances m)) /\
    Permutation (tick_labels p)
      (firstn (length (sv_values (featureImportances m))) features) /\
    Forall2 (fun w c =>
               exists i, nth_error (sv_values (featureImportances m)) i = Some w /\
                         nth_error features i = Some c)
      (bar_widths p) (tick_labels p).
Proof.
  unfold feature_importance_plot. intros H.
  destruct (Py.getitem_neg 2 model) as [s|] eqn:Eg; [|discriminate].
  destruct s as [| | | | |a featC m|]; try discriminate.
  destruct a; try discriminate.
  set (vals := sv_values (featureImportances m)) in *.
  destruct (take_indices vals (argsort vals)) as [ws|] eqn:Ew; [|discriminate].
  destruct (take_indices features (argsort vals)) as [ts|] eqn:Et; [|discriminate].
  inversion H; subst; clear H. cbn [bar_widths tick_labels].
  exists featC, m. split; [reflexivity|].
  assert (Hlen : length vals <= length features).
  { apply (argsort_in_bounds features vals). eauto. }
  split; [exact Hlen|].
  pose proof (take_indices_map 0%Q _ _ _ Ew) as Hws.
  pose proof (take_indices_map ""%string _ _ _ Et) as Hts.
  split; [|split; [|split]].
  - rewrite Hws. apply StronglySorted_map, argsort_sorted.
  - rewrite Hws. rewrite (Permutation_map _ (argsort_perm vals)).
    rewrite map_nth_seq by lia. now rewrite firstn_all.
  - rewrite Hts. rewrite (Permutation_map _ (argsort_perm vals)).
    now rewrite map_nth_seq by lia.
  - unfold take_indices in Ew, Et. apply mapM_Forall2 in Ew, Et.
    exact (Forall2_zip _ _ _ _ _ Ew Et).
Qed.

Lemma X21_plot_bars_and_ticks_witness :
  feature_importance_plot (tr_model Ran.trained) (pd_columns Example.df_churn_pd)
  = Some (nb_plot Ran.notebook) /\
  exists featC m,
    Py.getitem_neg 2 (tr_model Ran.trained)
    = Some (ClassificationModel RandomForest featC m) /\
    length (sv_values (featureImportances m)) <= length (pd_columns Example.df_churn_pd).
Proof.
  assert (H : feature_importance_plot (tr_model Ran.trained)
                (pd_columns Example.df_churn_pd) = Some (nb_plot Ran.notebook))
    by (vm_compute; reflexivity).
  split; [exact H|].
  destruct (X21_plot_bars_and_ticks _ _ _ H) as (featC & m & Hg & Hl & _).
  exists featC, m. split; assumption.
Defined.

Lemma X16_drop_label_column_witness :
  drop CHURNRISK Example.df_churn_pd = Some unlabelled /\
  drop CHURNRISK unlabelled = None.
Proof.
  assert (H : drop CHURNRISK Example.df_churn_pd = Some unlabelled)
    by (vm_compute; reflexivity).
  split; [exact H|].
  exact (proj1 (proj2 (proj2 (X16_drop_label_column _ _ _) H))).
Defined.

Lemma X1_remove_raises_without_label_witness :
  ~ In CHURNRISK ["ID"; "GENDER"]%string /\
  numericColumns ["ID"; "GENDER"]%string = None.
Proof.
  assert (H : ~ In CHURNRISK ["ID"; "GENDER"]%string)
    by (simpl; intuition discriminate).
  split; [exact H|].
  exact (proj2 (X1_remove_raises_without_label _) H).
Defined.
